(** * FanEngagement scripts: front-matter parser, issue creator, document converter

    A shallow embedding of [scripts/create_issues_from_docs.py] and
    [scripts/convert_md_to_docx.py].

    Python strings are sequences of Unicode code points; they are modelled
    as [list N].  Dictionaries are [gmap]s keyed by strings.  Exceptions
    are explicit: a computation that may raise returns a [result]. *)

From Stdlib Require Import NArith String Ascii List Lia DecimalString.
From stdpp Require Import base option list gmap.

Abbreviation char := N (only parsing).
Abbreviation str := (list N) (only parsing).

(** ** Python string primitives *)
Module Py.

(** An ASCII literal as a Python string. *)
Definition lit (s : string) : str := map N_of_ascii (list_ascii_of_string s).
Global Arguments lit : simpl never.

Definition NL : char := 10%N.      (* newline *)
Definition SP : char := 32%N.      (* space *)
Definition DQ : char := 34%N.      (* double quote *)
Definition SQ : char := 39%N.      (* single quote *)
Definition COMMA : char := 44%N.
Definition DOT : char := 46%N.
Definition SLASH : char := 47%N.
Definition COLON : char := 58%N.
Definition LBRACK : char := 91%N.  (* opening square bracket *)
Definition RBRACK : char := 93%N.  (* closing square bracket *)

(** [str.isspace] on one code point: the characters CPython treats as
    whitespace (bidirectional type WS, B or S, or category Zs). *)
Definition isspace (c : char) : bool :=
  ((0x09 <=? c) && (c <=? 0x0D) || (0x1C <=? c) && (c <=? 0x20)
   || (c =? 0x85) || (c =? 0xA0) || (c =? 0x1680)
   || (0x2000 <=? c) && (c <=? 0x200A)
   || (c =? 0x2028) || (c =? 0x2029) || (c =? 0x202F) || (c =? 0x205F)
   || (c =? 0x3000))%N.

Fixpoint drop_while (p : char -> bool) (s : str) : str :=
  match s with
  | [] => []
  | c :: s' => if p c then drop_while p s' else s
  end.

(** [s.lstrip()], [s.rstrip()], [s.strip()] *)
Definition lstrip (s : str) : str := drop_while isspace s.
Definition rstrip (s : str) : str := rev (drop_while isspace (rev s)).
Definition strip (s : str) : str := rstrip (lstrip s).

(** A string is trimmed when neither end is a whitespace character. *)
Definition stripped (s : str) : Prop :=
  (forall c, head s = Some c -> isspace c = false) /\
  (forall c, last s = Some c -> isspace c = false).

(** [s.startswith(c)], [s.endswith(c)] for a one-character [c] *)
Definition startswith_char (c : char) (s : str) : bool :=
  match head s with Some x => (x =? c)%N | None => false end.
Definition endswith_char (c : char) (s : str) : bool :=
  match last s with Some x => (x =? c)%N | None => false end.

(** [s.startswith(p)] *)
Fixpoint startswith (p s : str) : bool :=
  match p, s with
  | [], _ => true
  | _ :: _, [] => false
  | a :: p', b :: s' => (a =? b)%N && startswith p' s'
  end.

(** [s.endswith(p)] *)
Definition endswith (p s : str) : bool := startswith (rev p) (rev s).

(** [c in s] *)
Definition contains_char (c : char) (s : str) : bool :=
  existsb (fun x => (x =? c)%N) s.

(** [s[1:-1]]: indices from 1 up to [len(s) - 1], empty when there are
    fewer than three characters to choose from. *)
Definition slice_1_m1 (s : str) : str := take (length s - 1 - 1) (drop 1 s).

(** [s.split(sep)] for a one-character separator: the first piece and the
    pieces after it (the result is never empty). *)
Fixpoint split_pieces (sep : char) (s : str) : str * list str :=
  match s with
  | [] => ([], [])
  | c :: s' =>
      let '(piece, more) := split_pieces sep s' in
      if (c =? sep)%N then ([], piece :: more) else (c :: piece, more)
  end.

Definition split (sep : char) (s : str) : list str :=
  let '(piece, more) := split_pieces sep s in piece :: more.

(** [s.split(sep, 1)]: at most one cut, at the first separator. *)
Fixpoint cut_first (sep : char) (s : str) : option (str * str) :=
  match s with
  | [] => None
  | c :: s' =>
      if (c =? sep)%N then Some ([], s')
      else match cut_first sep s' with
           | Some (a, b) => Some (c :: a, b)
           | None => None
           end
  end.

Definition split_max1 (sep : char) (s : str) : list str :=
  match cut_first sep s with
  | Some (a, b) => [a; b]
  | None => [s]
  end.

(** [sep.join(pieces)] *)
Fixpoint join (sep : str) (pieces : list str) : str :=
  match pieces with
  | [] => []
  | [p] => p
  | p :: rest => p ++ sep ++ join sep rest
  end.

(** Exceptions. [KeyboardInterrupt] and [SystemExit] derive from
    [BaseException] only; every other class here derives from
    [Exception]. *)
Inductive exn_class :=
  | ValueError | TypeError | KeyError | FileNotFoundError
  | CalledProcessError | JSONDecodeError | OSError
  | KeyboardInterrupt | SystemExit.

Global Instance exn_class_eq_dec : EqDecision exn_class.
Proof. solve_decision. Defined.

Definition is_Exception (c : exn_class) : bool :=
  match c with
  | KeyboardInterrupt | SystemExit => false
  | _ => true
  end.

Record exn := Exn { exn_class_of : exn_class; exn_text : str }.

Inductive result (A : Type) :=
  | Ok (a : A)
  | Raise (e : exn).
Arguments Ok {A} a.
Arguments Raise {A} e.

Global Instance result_bind : MBind result := fun A B k m =>
  match m with
  | Ok a => k a
  | Raise e => Raise e
  end.

(** [a, b = xs] *)
Definition unpack2 (xs : list str) : result (str * str) :=
  match xs with
  | [a; b] => Ok (a, b)
  | _ :: _ :: _ :: _ =>
      Raise (Exn ValueError (lit "too many values to unpack (expected 2)"))
  | _ =>
      Raise (Exn ValueError (lit "not enough values to unpack (expected 2)"))
  end.

End Py.

(** ** scripts/create_issues_from_docs.py: [parse_frontmatter] *)
Module FrontMatter.
Import Py.

(** A metadata value: a scalar string or a list of strings. *)
Inductive value :=
  | VStr (s : str)
  | VList (items : list str).

Global Instance value_eq_dec : EqDecision value.
Proof. solve_decision. Defined.

(** The part of the pattern after the opening marker: a lazy group, the
    closing marker between two newlines, a greedy group; the dot matches
    newlines too ([re.DOTALL]).  The lazy group takes the fewest characters
    such that the closing marker follows, the greedy group takes all that
    comes after it. *)
Definition closing : str := NL :: lit "---" ++ [NL].

Fixpoint find_close (s : str) : option (str * str) :=
  if startswith closing s then Some ([], drop (length closing) s)
  else match s with
       | [] => None
       | c :: s' =>
           match find_close s' with
           | Some (g1, g2) => Some (c :: g1, g2)
           | None => None
           end
       end.

(** [re.match] of the front-matter pattern on [content]: the two groups
    when the pattern matches at the start of [content]. *)
Definition opening : str := lit "---" ++ [NL].

Definition re_match (content : str) : option (str * str) :=
  if startswith opening content
  then find_close (drop (length opening) content)
  else None.

Definition is_quoted (s : str) : bool :=
  (startswith_char DQ s && endswith_char DQ s)
  || (startswith_char SQ s && endswith_char SQ s).

(** One element of a bracketed list (the body of the inner loop). *)
Definition parse_item (part : str) : str :=
  let part := strip part in
  if is_quoted part then slice_1_m1 part else part.

(** The value of one [key: value] line, from the trimmed text after the
    colon. *)
Definition parse_value (v : str) : value :=
  if startswith_char LBRACK v && endswith_char RBRACK v then
    let inner := slice_1_m1 v in
    VList (match inner with
           | [] => []
           | _ :: _ => map parse_item (split COMMA inner)
           end)
  else
    VStr (if is_quoted v then slice_1_m1 v else v).

(** One iteration of the loop over the lines of the block. *)
Definition parse_line (metadata : gmap str value) (line : str)
  : result (gmap str value) :=
  let line := strip line in
  if bool_decide (line = []) || negb (contains_char COLON line) then
    Ok metadata
  else
    '(key, v) ← unpack2 (split_max1 COLON line);
    let key := strip key in
    let v := strip v in
    Ok (<[key := parse_value v]> metadata).

Fixpoint parse_lines (metadata : gmap str value) (lines : list str)
  : result (gmap str value) :=
  match lines with
  | [] => Ok metadata
  | line :: rest =>
      metadata' ← parse_line metadata line;
      parse_lines metadata' rest
  end.

Definition parse_frontmatter (content : str)
  : result (gmap str value * str) :=
  match re_match content with
  | None => Ok (∅, content)
  | Some (frontmatter_raw, rest) =>
      let body := strip rest in
      metadata ← parse_lines ∅ (split NL frontmatter_raw);
      Ok (metadata, body)
  end.

(** A document written as its lines, joined by newlines. *)
Definition doc (lines : list str) : str := join [NL] lines.

Definition marker : str := lit "---".

(** The entry one line of the block adds to the mapping, if any: the loop
    body of [parse_frontmatter] without the dictionary. *)
Definition line_entry (line : str) : option (str * value) :=
  match cut_first COLON (strip line) with
  | Some (key, v) => Some (strip key, parse_value (strip v))
  | None => None
  end.

Definition add_entry (metadata : gmap str value) (line : str)
  : gmap str value :=
  match line_entry line with
  | Some (key, v) => <[key := v]> metadata
  | None => metadata
  end.

End FrontMatter.

(** ** scripts/create_issues_from_docs.py: [issue_exists] and the command
    built in [main] *)
Module Issues.
Import Py FrontMatter.

(** The object [json.loads] returns.  An object's fields are the items of
    the resulting dictionary, in order. *)
#[local] Unset Elimination Schemes.
Inductive json :=
  | JNull
  | JBool (b : bool)
  | JNumber (text : str)
  | JString (s : str)
  | JArray (items : list json)
  | JObject (fields : list (str * json)).
#[local] Set Elimination Schemes.

(** [for issue in issues]: the elements the loop visits. *)
Definition iterate (j : json) : result (list json) :=
  match j with
  | JArray items => Ok items
  | JObject fields => Ok (map (fun kv => JString kv.1) fields)
  | JString s => Ok (map (fun c => JString [c]) s)
  | JNull | JBool _ | JNumber _ =>
      Raise (Exn TypeError (lit "object is not iterable"))
  end.

Fixpoint field (name : str) (fields : list (str * json)) : option json :=
  match fields with
  | [] => None
  | (k, v) :: rest => if bool_decide (k = name) then Some v else field name rest
  end.

(** [issue['title']] *)
Definition subscript_title (issue : json) : result json :=
  match issue with
  | JObject fields =>
      match field (lit "title") fields with
      | Some v => Ok v
      | None => Raise (Exn KeyError (lit "'title'"))
      end
  | JString _ =>
      Raise (Exn TypeError (lit "string indices must be integers"))
  | JArray _ =>
      Raise (Exn TypeError (lit "list indices must be integers or slices, not str"))
  | JNull | JBool _ | JNumber _ =>
      Raise (Exn TypeError (lit "object is not subscriptable"))
  end.

(** [x == title] for a decoded JSON value [x] and a string [title] *)
Definition equals_str (x : json) (title : str) : bool :=
  match x with
  | JString s => bool_decide (s = title)
  | _ => false
  end.

(** What the program prints, one line per [print]. *)
Definition output := list str.

Section tracker.
(** [subprocess.run(cmd, capture_output=True, text=True, check=True)]:
    the captured standard output, or the exception raised (the tool is
    missing, the exit status is not zero, ...). *)
Variable gh : list str -> result str.
(** [json.loads] *)
Variable json_loads : str -> result json.

Definition list_cmd (title : str) : list str :=
  [lit "gh"; lit "issue"; lit "list"; lit "--search";
   title ++ lit " in:title"; lit "--state"; lit "all";
   lit "--json"; lit "title"; lit "--limit"; lit "100"].

(** The loop over the issues found. *)
Fixpoint scan (issues : list json) (title : str) : result bool :=
  match issues with
  | [] => Ok false
  | issue :: rest =>
      t ← subscript_title issue;
      if equals_str t title then Ok true else scan rest title
  end.

(** The body of the [try] block. *)
Definition query (title : str) : result bool :=
  stdout ← gh (list_cmd title);
  issues ← json_loads stdout;
  items ← iterate issues;
  scan items title.

(** [issue_exists(title)]: what it prints, and what it returns or
    raises.  [except Exception] handles every exception whose class
    derives from [Exception]. *)
Definition issue_exists (title : str) : output * result bool :=
  match query title with
  | Ok b => ([], Ok b)
  | Raise e =>
      if is_Exception (exn_class_of e) then
        ([lit "Warning: Could not check if issue exists: " ++ exn_text e],
         Ok false)
      else ([], Raise e)
  end.
End tracker.

(** Sample behaviours of the tool and of the decoder. *)
Definition gh_missing : list str -> result str :=
  fun _ => Raise (Exn FileNotFoundError
                      (lit "[Errno 2] No such file or directory: 'gh'")).
Definition gh_prints (out : str) : list str -> result str := fun _ => Ok out.
Definition loads_fails : str -> result json :=
  fun _ => Raise (Exn JSONDecodeError (lit "Expecting value: line 1 column 1 (char 0)")).
Definition loads_gives (j : json) : str -> result json := fun _ => Ok j.

(** A command line as [main] builds it: its elements are whatever the
    metadata holds, strings or lists. *)
Definition str_args (args : list str) : list value := map VStr args.

(** [for label in labels]: a list yields its items, a string its
    characters, each as a one-character string. *)
Definition each_label (labels : value) : list value :=
  match labels with
  | VList items => map VStr items
  | VStr s => map (fun c => VStr [c]) s
  end.

(** The command of lines 150 to 152. *)
Definition create_cmd (title : value) (body : str) (labels : value)
  : list value :=
  str_args [lit "gh"; lit "issue"; lit "create"; lit "--title"]
  ++ [title] ++ str_args [lit "--body"; body]
  ++ flat_map (fun label => [VStr (lit "--label"); label]) (each_label labels).

(** Lines 134 to 152 for one file: [None] when the file is skipped for
    want of a title, else the title and the creation command. *)
Definition issue_request (content : str) : result (option (value * list value)) :=
  '(metadata, body) ← parse_frontmatter content;
  if bool_decide (metadata = ∅) || bool_decide (metadata !! lit "title" = None)
  then Ok None
  else
    match metadata !! lit "title" with
    | None => Raise (Exn KeyError (lit "'title'"))
    | Some title =>
        let labels := default (VList []) (metadata !! lit "labels") in
        Ok (Some (title, create_cmd title body labels))
    end.

End Issues.

(** ** scripts/convert_md_to_docx.py *)
Module Converter.
Import Py.

(** *** [os.path] on POSIX *)

(** [p[:i]] and [p[i:]] where [i] is one past the last [sep] in [p]. *)
Fixpoint rcut (sep : char) (p : str) : str * str :=
  match p with
  | [] => ([], [])
  | c :: p' =>
      let '(h, t) := rcut sep p' in
      if (c =? sep)%N || negb (bool_decide (h = [])) then (c :: h, t)
      else ([], c :: t)
  end.

Definition rstrip_char (c : char) (s : str) : str :=
  rev (drop_while (fun x => (x =? c)%N) (rev s)).

(** [os.path.dirname] *)
Definition dirname (p : str) : str :=
  let h := (rcut SLASH p).1 in
  if negb (bool_decide (h = [])) && negb (forallb (fun x => (x =? SLASH)%N) h)
  then rstrip_char SLASH h else h.

(** [os.path.basename] *)
Definition basename (p : str) : str := (rcut SLASH p).2.

(** [os.path.splitext]: the extension starts at the last dot of the last
    component, unless only dots come before it there. *)
Definition splitext (p : str) : str * str :=
  let '(dir, name) := rcut SLASH p in
  let '(h, t) := rcut DOT name in
  match h with
  | [] => (p, [])
  | _ :: _ =>
      let root := removelast h in
      if forallb (fun x => (x =? DOT)%N) root then (p, [])
      else (dir ++ root, DOT :: t)
  end.

(** [os.path.join] of two components *)
Definition path_join (a b : str) : str :=
  if startswith_char SLASH b then b
  else if bool_decide (a = []) || endswith_char SLASH a then a ++ b
  else a ++ SLASH :: b.

(** [s.lower()] on the letters A to Z; other code points are left as they
    are. *)
Definition lower_char (c : char) : char :=
  if ((65 <=? c) && (c <=? 90))%N then (c + 32)%N else c.
Definition lower (s : str) : str := map lower_char s.

(** *** [glob.glob(os.path.join(path, "*.md"))] *)

(** [fnmatch] of a directory entry against the pattern: the name ends
    with the extension, and entries that begin with a dot are left out. *)
Definition matches_md (name : str) : bool :=
  negb (startswith_char DOT name) && endswith (lit ".md") name.

Definition has_magic (s : str) : bool :=
  existsb (fun c => (c =? 42)%N || (c =? 63)%N || (c =? 91)%N) s.

Inductive event :=
  | Print (line : str)
  | MakeDirs (path : str)
  | RunCmd (cmd : list str).

(** A step of the script: the events so far, and a value or an
    exception. *)
Definition io (A : Type) : Type := list event * result A.

Definition io_bind {A B} (m : io A) (k : A -> io B) : io B :=
  match m with
  | (out, Ok a) => let '(out', r) := k a in (out ++ out', r)
  | (out, Raise e) => (out, Raise e)
  end.

Definition emit (e : event) : io unit := ([e], Ok tt).

(** Statement sequencing: the second statement runs when the first does
    not raise. *)
Definition seq (m k : io unit) : io unit := io_bind m (fun _ => k).

Fixpoint for_each {A} (body : A -> io unit) (xs : list A) : io unit :=
  match xs with
  | [] => ([], Ok tt)
  | x :: rest => seq (body x) (for_each body rest)
  end.

Section filesystem.
Variable isfile isdir : str -> bool.
(** The names in a directory, as the operating system lists them;
    nothing when it cannot be listed. *)
Variable listdir : str -> list str.
(** The result of [glob.glob] on a pattern whose directory part has
    wildcards of its own. *)
Variable glob_wild : str -> list str.
(** [os.makedirs(path, exist_ok=True)] *)
Variable makedirs : str -> result unit.
(** [subprocess.run(cmd, check=True)] *)
Variable run : list str -> result unit.

Definition glob_md (path : str) : list str :=
  let pattern := path_join path (lit "*.md") in
  let d := dirname pattern in
  if bool_decide (d = []) then filter (fun n => matches_md n = true) (listdir (lit "."))
  else if has_magic d then glob_wild pattern
  else map (path_join d) (filter (fun n => matches_md n = true) (listdir d)).

(** The [try] block of [convert_file]. *)
Definition pandoc_cmd (input_path output_path : str) : list str :=
  [lit "pandoc"; input_path; lit "-f"; lit "markdown";
   lit "-t"; lit "docx"; lit "-o"; output_path].

Definition try_pandoc (input_path output_path : str) : io unit :=
  let cmd := pandoc_cmd input_path output_path in
  match run cmd with
  | Ok _ =>
      ([RunCmd cmd; Print (lit "Success: Created " ++ output_path)], Ok tt)
  | Raise e =>
      if bool_decide (exn_class_of e = CalledProcessError) then
        ([RunCmd cmd;
          Print (lit "Error converting " ++ input_path ++ lit ": "
                 ++ exn_text e)], Ok tt)
      else if is_Exception (exn_class_of e) then
        ([RunCmd cmd;
          Print (lit "Unexpected error on " ++ input_path ++ lit ": "
                 ++ exn_text e)], Ok tt)
      else ([RunCmd cmd], Raise e)
  end.

Definition convert_file (input_path : str) : io unit :=
  if negb (endswith (lit ".md") (lower input_path)) then
    emit (Print (lit "Skipping " ++ input_path ++ lit ": Not a markdown file."))
  else
    let directory := dirname input_path in
    let filename := basename input_path in
    let filename_no_ext := (splitext filename).1 in
    let output_dir := path_join directory (lit "converted") in
    seq ([MakeDirs output_dir], makedirs output_dir) (
    let output_path := path_join output_dir (filename_no_ext ++ lit ".docx") in
    seq (emit (Print (lit "Converting " ++ input_path ++ lit " -> "
                      ++ output_path ++ lit "...")))
        (try_pandoc input_path output_path)).

Definition process_path (path : str) : io unit :=
  if isfile path then convert_file path
  else if isdir path then
    seq (emit (Print (lit "Scanning directory: " ++ path))) (
    let md_files := glob_md path in
    seq (if bool_decide (md_files = [])
         then emit (Print (lit "No .md files found in " ++ path))
         else ([], Ok tt))
        (for_each convert_file md_files))
  else emit (Print (lit "Error: Path not found: " ++ path)).

End filesystem.

(** The converter commands among the events of a run, and whether a
    printed line is a skip notice. *)
Definition commands (events : list event) : list (list str) :=
  flat_map (fun ev => match ev with RunCmd cmd => [cmd] | _ => [] end) events.

Definition is_skip_notice (ev : event) : bool :=
  match ev with
  | Print line => startswith (lit "Skipping ") line
  | _ => false
  end.

(** A sample file system: one directory, [docs], that holds a Markdown
    file and a text file; every tool succeeds. *)
Module Sample.
Definition isfile (p : str) : bool :=
  bool_decide (p = lit "docs/notes.md") || bool_decide (p = lit "docs/readme.txt").
Definition isdir (p : str) : bool := bool_decide (p = lit "docs").
Definition listdir (p : str) : list str :=
  if bool_decide (p = lit "docs") then [lit "notes.md"; lit "readme.txt"] else [].
Definition glob_wild (pattern : str) : list str := [].
Definition makedirs (p : str) : result unit := Ok tt.
Definition run (cmd : list str) : result unit := Ok tt.
End Sample.

End Converter.

(** ** The specification's own words, for comparison with the code *)
Module Spec.
Import Py FrontMatter.

(** A front-matter pattern at the start of the text: the marker line, a
    block, and a line that holds only the marker. *)
Definition has_front_matter (content : str) : Prop :=
  exists block rest, content = opening ++ block ++ closing ++ rest.

(** A piece is wrapped in a pair of quotes [q]. *)
Definition wrapped_in (q : char) (s : str) : bool :=
  (2 <=? length s) && startswith_char q s && endswith_char q s.

(** Strip one layer of matching surrounding quotes if present, else keep
    the text as it is. *)
Definition strip_quote_layer (s : str) : str :=
  if wrapped_in DQ s || wrapped_in SQ s then slice_1_m1 s else s.

(** A bracketed value: strip the brackets, split the interior on commas,
    trim each piece, strip one layer of quotes from each; an empty
    interior is the empty sequence. *)
Definition list_of (v : str) : list str :=
  let inner := slice_1_m1 v in
  if bool_decide (inner = []) then []
  else map (fun piece => strip_quote_layer (strip piece)) (split COMMA inner).

Definition is_bracketed (v : str) : bool :=
  startswith_char LBRACK v && endswith_char RBRACK v.

Definition value_of (v : str) : value :=
  if is_bracketed v then VList (list_of v) else VStr (strip_quote_layer v).

(** Modelled from the spec: the repository has no serializer.  The
    metadata is written back as one [key: value] line per entry between
    two marker lines, a list value in bracketed, comma-separated, quoted
    form, a scalar as it is. *)
Definition quoted (s : str) : str := DQ :: s ++ [DQ].

Definition serialize_value (v : value) : str :=
  match v with
  | VStr s => s
  | VList items => LBRACK :: join (lit ", ") (map quoted items) ++ [RBRACK]
  end.

Definition serialize_line (kv : str * value) : str :=
  kv.1 ++ lit ": " ++ serialize_value kv.2.

Definition serialize (m : gmap str value) : str :=
  opening ++ join [NL] (map serialize_line (map_to_list m)) ++ closing.

(** The scalars the format can carry unchanged: already trimmed, not in
    brackets, not in quotes.  Every key and every list the parser yields
    can be carried. *)
Definition plain (s : str) : bool :=
  bool_decide (strip s = s) && negb (is_bracketed s) && negb (is_quoted s).

Definition supported_value (v : value) : bool :=
  match v with
  | VStr s => plain s
  | VList _ => true
  end.

Definition supported (m : gmap str value) : bool :=
  forallb (fun kv => supported_value kv.2) (map_to_list m).

(** What the parser guarantees of its keys and values: a key is trimmed
    and has no colon, a list item has no comma, nothing has a newline. *)
Definition key_ok (k : str) : Prop :=
  strip k = k /\ (COLON ∉ k) /\ (NL ∉ k).

Definition value_ok (v : value) : Prop :=
  match v with
  | VStr s => NL ∉ s
  | VList items => Forall (fun item => (COMMA ∉ item) /\ (NL ∉ item)) items
  end.

Definition entries_ok (m : gmap str value) : Prop :=
  forall k v, m !! k = Some v -> key_ok k /\ value_ok v.

Definition entry_ok (kv : str * value) : Prop :=
  key_ok kv.1 /\ value_ok kv.2 /\ supported_value kv.2 = true.

End Spec.

(** ** scripts/create_issues_from_docs.py: [check_gh_installed] and [main] *)
Module IssueBatch.
Import Py FrontMatter Issues.

Definition DOCS_DIR : str := lit "docs/product".
Definition BACKLOG_FILE : str := lit "backlog.md".

(** What a run does, in order: a printed line, a call of [subprocess.run]
    with its command, the opening of a file. *)
Inductive event :=
  | Say (line : str)
  | Call (cmd : list value)
  | Open (path : str).

(** [subprocess.run(cmd, capture_output=True, text=True, check=True)] on
    the creation command: the standard output, or a
    [CalledProcessError] with the captured standard error, or another
    exception. *)
Inductive create_outcome :=
  | Created (stdout : str)
  | Failed (stderr : str)
  | Crashed (e : exn).

(** [a <= b] on strings: code point by code point. *)
Fixpoint str_leb (a b : str) : bool :=
  match a, b with
  | [], _ => true
  | _ :: _, [] => false
  | x :: a', y :: b' =>
      if (x <? y)%N then true
      else if (x =? y)%N then str_leb a' b' else false
  end.

Fixpoint insert_sorted (x : str) (l : list str) : list str :=
  match l with
  | [] => [x]
  | y :: l' => if str_leb x y then x :: l else y :: insert_sorted x l'
  end.

(** [sorted(l)] on a list of strings *)
Definition sorted (l : list str) : list str := foldr insert_sorted [] l.

(** [f"{n}"] for a counter *)
Definition str_of_nat (n : nat) : str :=
  lit (NilEmpty.string_of_uint (Nat.to_uint n)).

(** The elements of a command when all of them are strings. *)
Fixpoint all_str (cmd : list value) : option (list str) :=
  match cmd with
  | [] => Some []
  | VStr s :: rest =>
      match all_str rest with
      | Some strs => Some (s :: strs)
      | None => None
      end
  | VList _ :: _ => None
  end.

(** [x == title] where [title] is a list: a decoded array of the same
    strings. *)
Fixpoint same_strings (xs : list json) (items : list str) : bool :=
  match xs, items with
  | [], [] => true
  | JString s :: xs', item :: items' =>
      bool_decide (s = item) && same_strings xs' items'
  | _, _ => false
  end.

Definition equals_value (x : json) (title : value) : bool :=
  match title with
  | VStr s => equals_str x s
  | VList items =>
      match x with
      | JArray xs => same_strings xs items
      | _ => false
      end
  end.

Section batch.
(** [subprocess.run] on the version command of [check_gh_installed] *)
Variable gh_version : result unit.
(** [os.path.abspath(__file__)], [os.path.exists], [os.path.abspath],
    [glob.glob] *)
Variable script_file : str.
Variable exists_path : str -> bool.
Variable abspath : str -> str.
Variable glob : str -> list str.
(** Opening a file and reading all of it *)
Variable read_file : str -> result str.
(** The tracker: the listing command, the decoder, the creation command *)
Variable gh : list str -> result str.
Variable json_loads : str -> result json.
Variable gh_create : list str -> create_outcome.
(** [str] of a list of strings, as an f-string formats it *)
Variable str_of_list : list str -> str.

Definition check_gh_installed : result bool :=
  match gh_version with
  | Ok _ => Ok true
  | Raise e =>
      if bool_decide (exn_class_of e = CalledProcessError)
         || bool_decide (exn_class_of e = FileNotFoundError)
      then Ok false else Raise e
  end.

(** [f"{title}"] *)
Definition title_text (title : value) : str :=
  match title with
  | VStr s => s
  | VList items => str_of_list items
  end.

(** [issue_exists(title)] as [main] calls it, with whatever the metadata
    holds under the title key. *)
Fixpoint scan_value (issues : list json) (title : value) : result bool :=
  match issues with
  | [] => Ok false
  | issue :: rest =>
      t ← subscript_title issue;
      if equals_value t title then Ok true else scan_value rest title
  end.

Definition query_value (title : value) : result bool :=
  stdout ← gh (list_cmd (title_text title));
  issues ← json_loads stdout;
  items ← iterate issues;
  scan_value items title.

Definition issue_exists_value (title : value) : output * result bool :=
  match query_value title with
  | Ok b => ([], Ok b)
  | Raise e =>
      if is_Exception (exn_class_of e) then
        ([lit "Warning: Could not check if issue exists: " ++ exn_text e],
         Ok false)
      else ([], Raise e)
  end.

(** [subprocess.run] on the creation command: an element that is not a
    string is refused before anything runs. *)
Definition run_create (cmd : list value) : create_outcome :=
  match all_str cmd with
  | Some strs => gh_create strs
  | None =>
      Crashed (Exn TypeError
                 (lit "expected str, bytes or os.PathLike object, not list"))
  end.

(** The body of the loop over the files, on the two counters. *)
Definition process_file (st : nat * nat) (file_path : str)
  : list event * result (nat * nat) :=
  let '(count, skipped) := st in
  let filename := Converter.basename file_path in
  if bool_decide (filename = BACKLOG_FILE) then ([], Ok st)
  else
    let ev1 := [Say (lit "Processing " ++ filename ++ lit "..."); Open file_path] in
    match read_file file_path with
    | Raise e =>
        if is_Exception (exn_class_of e)
        then (ev1 ++ [Say (lit "  Error reading file: " ++ exn_text e)], Ok st)
        else (ev1, Raise e)
    | Ok content =>
        match parse_frontmatter content with
        | Raise e => (ev1, Raise e)
        | Ok (metadata, body) =>
            if bool_decide (metadata = ∅)
               || bool_decide (metadata !! lit "title" = None)
            then
              (ev1 ++ [Say (lit "  Skipping: No 'title' found in frontmatter.")],
               Ok st)
            else
              match metadata !! lit "title" with
              | None => (ev1, Raise (Exn KeyError (lit "'title'")))
              | Some title =>
                  let labels := default (VList []) (metadata !! lit "labels") in
                  let '(warnings, found) := issue_exists_value title in
                  let ev2 :=
                    ev1 ++ [Call (str_args (list_cmd (title_text title)))]
                    ++ map Say warnings in
                  match found with
                  | Raise e => (ev2, Raise e)
                  | Ok true =>
                      (ev2 ++ [Say (lit "  Skipping: Issue with title '"
                                    ++ title_text title
                                    ++ lit "' already exists.")],
                       Ok (count, S skipped))
                  | Ok false =>
                      let cmd := create_cmd title body labels in
                      let ev3 := ev2 ++ [Call cmd] in
                      match run_create cmd with
                      | Created stdout =>
                          (ev3 ++ [Say (lit "  Success: Created issue "
                                        ++ strip stdout)],
                           Ok (S count, skipped))
                      | Failed stderr =>
                          (ev3 ++ [Say (lit "  Error creating issue: " ++ stderr)],
                           Ok st)
                      | Crashed e => (ev3, Raise e)
                      end
                  end
              end
        end
    end.

(** The loop: it stops at the first exception. *)
Fixpoint process_files (st : nat * nat) (files : list str)
  : list event * result (nat * nat) :=
  match files with
  | [] => ([], Ok st)
  | file_path :: rest =>
      match process_file st file_path with
      | (ev, Ok st') =>
          let '(ev', r) := process_files st' rest in (ev ++ ev', r)
      | (ev, Raise e) => (ev, Raise e)
      end
  end.

Definition exit_1 : exn := Exn SystemExit (lit "1").

Definition version_cmd : list value := str_args [lit "gh"; lit "--version"].

(** [main]: the events of the run, and its end: [Ok] when it returns,
    [Raise] with [SystemExit] or with the exception that ended it. *)
Definition main : list event * result unit :=
  match check_gh_installed with
  | Raise e => ([Call version_cmd], Raise e)
  | Ok false =>
      ([Call version_cmd;
        Say (lit "Error: GitHub CLI ('gh') is not installed or not in PATH.");
        Say (lit "Please install it: https://cli.github.com/")],
       Raise exit_1)
  | Ok true =>
      let script_dir := Converter.dirname script_file in
      let workspace_root := Converter.dirname script_dir in
      let target_dir := Converter.path_join workspace_root DOCS_DIR in
      let located :=
        if exists_path target_dir then Some target_dir
        else if exists_path DOCS_DIR then Some (abspath DOCS_DIR)
        else None in
      match located with
      | None =>
          ([Call version_cmd;
            Say (lit "Error: Could not find directory " ++ DOCS_DIR)],
           Raise exit_1)
      | Some target_dir =>
          let files := sorted (glob (Converter.path_join target_dir (lit "*.md"))) in
          let head := [Call version_cmd;
                       Say (lit "Scanning " ++ target_dir
                            ++ lit " for markdown files...")] in
          match process_files (0, 0) files with
          | (ev, Ok (count, skipped)) =>
              (head ++ ev
               ++ [Say ([NL] ++ lit "Done. Created " ++ str_of_nat count
                        ++ lit " issues. Skipped " ++ str_of_nat skipped
                        ++ lit " existing issues.")],
               Ok tt)
          | (ev, Raise e) => (head ++ ev, Raise e)
          end
      end
  end.

End batch.

(** The calls of a run, and the files it opened. *)
Definition calls (events : list event) : list (list value) :=
  flat_map (fun ev => match ev with Call cmd => [cmd] | _ => [] end) events.

Definition opened (events : list event) : list str :=
  flat_map (fun ev => match ev with Open path => [path] | _ => [] end) events.

(** An answer of the tracker in the expected form: one object per issue,
    with a string under the title key. *)
Definition titled (issue : json) (t : str) : Prop :=
  exists fields, issue = JObject fields /\
                 field (lit "title") fields = Some (JString t).

(** Sample behaviours for a run: two files to read, a tracker that knows
    one issue, creation that succeeds or fails. *)
Module SampleRun.
Definition login_md : str :=
  doc [lit "---"; lit "title: Fix login bug"; lit "labels: [bug, urgent]";
       lit "---"; lit "Steps to reproduce"].
Definition notes_md : str := doc [lit "# Notes"; lit "no metadata here"].
Definition list_title_md : str :=
  doc [lit "---"; lit "title: [Fix, login]"; lit "---"; lit "Body"].
Definition read_file (p : str) : result str :=
  if bool_decide (p = lit "docs/product/login.md") then Ok login_md
  else if bool_decide (p = lit "docs/product/notes.md") then Ok notes_md
  else if bool_decide (p = lit "docs/product/list.md") then Ok list_title_md
  else Raise (Exn FileNotFoundError (lit "[Errno 2] No such file or directory")).
Definition read_login (p : str) : result str := Ok login_md.
Definition known_issues : json :=
  JArray [JObject [(lit "title", JString (lit "Fix login bug"))]].
Definition create_ok (cmd : list str) : create_outcome :=
  Created (lit "https://github.com/o/r/issues/7").
Definition create_fails (cmd : list str) : create_outcome :=
  Failed (lit "could not add label: 'urgent' not found").
Definition str_of_list (items : list str) : str := lit "[...]".
End SampleRun.





Definition is_create (cmd : list value) : bool :=
  bool_decide (take 3 cmd = str_args [lit "gh"; lit "issue"; lit "create"]).

End IssueBatch.

(** ** scripts/convert_md_to_docx.py: [check_pandoc] and [main] *)
Module ConverterMain.
Import Py Converter.

Definition install_help : list event :=
  [Print (lit "Error: 'pandoc' is not installed or not in your PATH.");
   Print (lit "This script requires pandoc to convert Markdown to Word documents.");
   Print ([NL] ++ lit "Please install pandoc:");
   Print (lit "  macOS:   brew install pandoc");
   Print (lit "  Windows: choco install pandoc");
   Print (lit "  Linux:   sudo apt-get install pandoc");
   Print ([NL] ++ lit "Download page: https://pandoc.org/installing.html")].

Section run.
Variable isfile isdir : str -> bool.
Variable listdir : str -> list str.
Variable glob_wild : str -> list str.
Variable makedirs : str -> result unit.
Variable run : list str -> result unit.
(** [shutil.which('pandoc')] finds the tool. *)
Variable pandoc_found : bool.


Definition check_pandoc : io unit :=
  if pandoc_found then ([], Ok tt)
  else (install_help, Raise (Exn SystemExit (lit "1"))).

(** [main] on the paths of the command line, once the arguments are
    parsed. *)
Definition main (paths : list str) : io unit :=
  seq check_pandoc
      (for_each (process_path isfile isdir listdir glob_wild makedirs run) paths).

End run.

(** The sample file system of [Converter.Sample], with the directory
    named with a slash at its end. *)
Module SampleSlash.
Definition isfile (p : str) : bool := false.
Definition isdir (p : str) : bool := bool_decide (p = lit "docs/").
End SampleSlash.

(** The directories a run asked for. *)
Definition made_dirs (events : list event) : list str :=
  flat_map (fun ev => match ev with MakeDirs p => [p] | _ => [] end) events.

(** Where [convert_file] writes the conversion of an input path. *)
Definition output_path_of (input_path : str) : str :=
  path_join (path_join (dirname input_path) (lit "converted"))
            ((splitext (basename input_path)).1 ++ lit ".docx").

Definition is_markdown (input_path : str) : bool :=
  endswith (lit ".md") (lower input_path).

End ConverterMain.

(** ** Facts about the string primitives *)
Module PyFacts.
Import Py.

Lemma startswith_char_cons c x s : startswith_char c (x :: s) = (x =? c)%N.
Proof. reflexivity. Qed.

Lemma endswith_char_snoc c s x : endswith_char c (s ++ [x]) = (x =? c)%N.
Proof. unfold endswith_char. by rewrite last_snoc. Qed.

Lemma slice_wrap a s b : slice_1_m1 (a :: s ++ [b]) = s.
Proof.
  unfold slice_1_m1. cbn [length]. rewrite skipn_cons, drop_0.
  rewrite length_app. cbn [length].
  apply take_app_length'. lia.
Qed.

Lemma slice_singleton a : slice_1_m1 [a] = [].
Proof. reflexivity. Qed.

(** A string that starts with [a] and ends with [b] is either the single
    character [a = b] or has both characters around a middle part. *)
Lemma ends_inv a b s :
  startswith_char a s = true -> endswith_char b s = true ->
  (s = [a] /\ a = b) \/ exists mid, s = a :: mid ++ [b].
Proof.
  destruct s as [|x s]; [done|].
  rewrite startswith_char_cons. intros ->%N.eqb_eq.
  destruct s as [|y s' _] using rev_ind.
  - cbn. intros ->%N.eqb_eq. by left.
  - rewrite app_comm_cons, endswith_char_snoc. intros ->%N.eqb_eq.
    right. by exists s'.
Qed.

Lemma contains_char_spec c s : contains_char c s = true <-> c ∈ s.
Proof.
  unfold contains_char. rewrite existsb_exists. split.
  - intros (x & Hx & ->%N.eqb_eq). by apply list_elem_of_In.
  - intros Hc. exists c. split; [by apply list_elem_of_In | apply N.eqb_refl].
Qed.

Lemma contains_char_false c s : contains_char c s = false <-> c ∉ s.
Proof.
  rewrite <- contains_char_spec. by destruct (contains_char c s).
Qed.

(** *** Trimming *)
Section strip_facts.

Lemma drop_while_split p s :
  exists pre, s = pre ++ drop_while p s /\ Forall (fun c => p c = true) pre.
Proof.
  induction s as [|c s (pre & Hs & Hpre)]; [by exists []|].
  cbn. destruct (p c) eqn:Hc.
  - exists (c :: pre). split; [by rewrite Hs at 1 | by constructor].
  - by exists [].
Qed.

Lemma drop_while_head p s c :
  head (drop_while p s) = Some c -> p c = false.
Proof.
  induction s as [|x s IH]; [done|].
  cbn. destruct (p x) eqn:Hx; [done|]. cbn. by intros [= <-].
Qed.

Lemma drop_while_keep p s :
  (forall c, head s = Some c -> p c = false) -> drop_while p s = s.
Proof. destruct s as [|c s]; [done|]. cbn. intros H. by rewrite H. Qed.

Lemma drop_while_all p s :
  Forall (fun c => p c = true) s -> drop_while p s = [].
Proof. induction 1 as [|c s Hc _ IH]; [done|]. cbn. by rewrite Hc. Qed.

Lemma rstrip_nil : rstrip [] = [].
Proof. reflexivity. Qed.

Lemma rstrip_snoc s c :
  rstrip (s ++ [c]) = if isspace c then rstrip s else s ++ [c].
Proof.
  unfold rstrip. rewrite rev_unit. cbn.
  destruct (isspace c); [done|]. cbn. by rewrite rev_involutive.
Qed.

Lemma rstrip_cons c s :
  isspace c = false -> rstrip (c :: s) = c :: rstrip s.
Proof.
  intros Hc. induction s as [|y s IH] using rev_ind.
  - change [c] with ([] ++ [c]). by rewrite rstrip_snoc, Hc.
  - rewrite app_comm_cons, !rstrip_snoc. by destruct (isspace y).
Qed.

Lemma rstrip_last s c : last (rstrip s) = Some c -> isspace c = false.
Proof.
  induction s as [|y s IH] using rev_ind; [done|].
  rewrite rstrip_snoc. destruct (isspace y) eqn:Hy; [done|].
  rewrite last_snoc. by intros [= <-].
Qed.

Lemma rstrip_keep s :
  (forall c, last s = Some c -> isspace c = false) -> rstrip s = s.
Proof.
  destruct s as [|y s _] using rev_ind; [done|].
  intros H. rewrite rstrip_snoc, H; [done|]. apply last_snoc.
Qed.

Lemma rstrip_split s :
  exists post, s = rstrip s ++ post /\ Forall (fun c => isspace c = true) post.
Proof.
  unfold rstrip.
  destruct (drop_while_split isspace (rev s)) as (pre & Hs & Hpre).
  exists (rev pre). split; [|by apply Forall_rev].
  by rewrite <- rev_app_distr, <- Hs, rev_involutive.
Qed.

Lemma strip_stripped s : stripped (strip s).
Proof.
  unfold strip, lstrip. split; [|apply rstrip_last].
  pose proof (drop_while_head isspace s) as Hh.
  destruct (drop_while isspace s) as [|x t]; [done|].
  rewrite rstrip_cons by (by apply Hh). cbn. intros c [= <-]. by apply Hh.
Qed.

Lemma stripped_strip s : stripped s -> strip s = s.
Proof.
  intros [Hh Hl]. unfold strip, lstrip.
  rewrite drop_while_keep by done. by apply rstrip_keep.
Qed.

Lemma strip_idemp s : strip (strip s) = strip s.
Proof. apply stripped_strip, strip_stripped. Qed.

Lemma strip_split s :
  exists pre post,
    s = pre ++ strip s ++ post /\
    Forall (fun c => isspace c = true) pre /\
    Forall (fun c => isspace c = true) post.
Proof.
  destruct (drop_while_split isspace s) as (pre & Hs & Hpre).
  destruct (rstrip_split (lstrip s)) as (post & Ht & Hpost).
  exists pre, post. split_and!; [|done..].
  unfold strip. by rewrite <- Ht.
Qed.

Lemma strip_elem_of c s : c ∈ strip s -> c ∈ s.
Proof.
  destruct (strip_split s) as (pre & post & Hs & _).
  intros Hc. rewrite Hs. set_solver.
Qed.

Lemma strip_all_space s :
  Forall (fun c => isspace c = true) s -> strip s = [].
Proof. intros H. unfold strip, lstrip. by rewrite drop_while_all. Qed.

End strip_facts.

(** *** Splitting and joining *)
Section split_facts.
Variable sep : char.

Lemma split_nil : split sep [] = [[]].
Proof. reflexivity. Qed.

Lemma split_cons c s :
  split sep (c :: s) =
  if (c =? sep)%N then [] :: split sep s
  else match split sep s with
       | piece :: more => (c :: piece) :: more
       | [] => []
       end.
Proof.
  unfold split. cbn. destruct (split_pieces sep s) as [piece more].
  by destruct (c =? sep)%N.
Qed.

Lemma split_not_nil s : split sep s <> [].
Proof. unfold split. by destruct (split_pieces sep s). Qed.

Lemma split_no_sep s : sep ∉ s -> split sep s = [s].
Proof.
  induction s as [|c s IH]; [done|].
  intros [Hc Hs]%not_elem_of_cons. rewrite split_cons, (IH Hs).
  destruct (N.eqb_spec c sep); congruence.
Qed.

Lemma split_app_sep a b :
  sep ∉ a -> split sep (a ++ sep :: b) = a :: split sep b.
Proof.
  induction a as [|c a IH]; cbn [app].
  - intros _. by rewrite split_cons, N.eqb_refl.
  - intros [Hc Ha]%not_elem_of_cons. rewrite split_cons, (IH Ha).
    destruct (N.eqb_spec c sep); congruence.
Qed.

Lemma split_pieces_no_sep s piece : piece ∈ split sep s -> sep ∉ piece.
Proof.
  revert piece. induction s as [|c s IH]; intros piece.
  - rewrite split_nil. intros ->%list_elem_of_singleton. set_solver.
  - rewrite split_cons. destruct (N.eqb_spec c sep) as [->|Hne].
    + intros [->|Hin]%elem_of_cons; [set_solver | by apply IH].
    + destruct (split sep s) as [|p more]; [set_solver|].
      intros [->|Hin]%elem_of_cons.
      * apply not_elem_of_cons. split; [done|]. apply IH. set_solver.
      * apply IH. set_solver.
Qed.

Lemma split_pieces_elem_of s piece c :
  piece ∈ split sep s -> c ∈ piece -> c ∈ s.
Proof.
  revert piece. induction s as [|x s IH]; intros piece.
  - rewrite split_nil. by intros ->%list_elem_of_singleton.
  - rewrite split_cons. destruct (x =? sep)%N.
    + intros [->|Hin]%elem_of_cons Hc; [set_solver|].
      apply elem_of_cons. right. by apply (IH piece).
    + destruct (split sep s) as [|p more]; [set_solver|].
      intros [->|Hin]%elem_of_cons Hc.
      * apply elem_of_cons in Hc as [->|Hc]; [set_solver|].
        apply elem_of_cons. right. apply (IH p); set_solver.
      * apply elem_of_cons. right. apply (IH piece); set_solver.
Qed.

Lemma join_cons_cons (p q : str) (rest : list str) :
  join [sep] (p :: q :: rest) = p ++ sep :: join [sep] (q :: rest).
Proof. reflexivity. Qed.

Lemma split_join pieces :
  pieces <> [] -> Forall (fun p => sep ∉ p) pieces ->
  split sep (join [sep] pieces) = pieces.
Proof.
  induction pieces as [|p [|q rest] IH]; [done| |].
  - intros _ [Hp _]%Forall_cons. by apply split_no_sep.
  - intros _ [Hp Hrest]%Forall_cons.
    rewrite join_cons_cons, split_app_sep by done. f_equal. by apply IH.
Qed.

Lemma join_split s : join [sep] (split sep s) = s.
Proof.
  induction s as [|c s IH]; [done|].
  rewrite split_cons. pose proof (split_not_nil s) as Hne.
  destruct (N.eqb_spec c sep) as [->|_].
  - destruct (split sep s) as [|p more]; [done|].
    rewrite join_cons_cons. cbn [app]. by rewrite IH.
  - destruct (split sep s) as [|p [|q more]]; [done|..].
    + cbn in *. by rewrite IH.
    + rewrite join_cons_cons in *. cbn [app]. by rewrite IH.
Qed.

Lemma cut_first_app a b :
  sep ∉ a -> cut_first sep (a ++ sep :: b) = Some (a, b).
Proof.
  induction a as [|c a IH]; cbn.
  - intros _. by rewrite N.eqb_refl.
  - intros [Hc Ha]%not_elem_of_cons. rewrite (IH Ha).
    destruct (N.eqb_spec c sep); congruence.
Qed.

Lemma cut_first_Some s :
  sep ∈ s -> exists a b, cut_first sep s = Some (a, b) /\
                          s = a ++ sep :: b /\ sep ∉ a.
Proof.
  induction s as [|c s IH]; [set_solver|].
  intros Hin. cbn. destruct (N.eqb_spec c sep) as [->|Hne].
  - exists [], s. split_and!; [done..|set_solver].
  - apply elem_of_cons in Hin as [?|Hin]; [congruence|].
    destruct (IH Hin) as (a & b & -> & -> & Ha).
    exists (c :: a), b. split_and!; [done..|].
    apply not_elem_of_cons. split; [congruence | done].
Qed.

End split_facts.

Lemma cut_first_None sep s : sep ∉ s -> cut_first sep s = None.
Proof.
  induction s as [|c s IH]; [done|].
  intros [Hc Hs]%not_elem_of_cons. cbn. rewrite (IH Hs).
  destruct (N.eqb_spec c sep); congruence.
Qed.

(** Cutting at the first separator is unambiguous. *)
Lemma app_sep_inj sep (a a' b b' : str) :
  sep ∉ a -> sep ∉ a' -> a ++ sep :: b = a' ++ sep :: b' -> a = a' /\ b = b'.
Proof.
  intros Ha Ha' Heq.
  pose proof (cut_first_app sep a b Ha) as H1.
  rewrite Heq, (cut_first_app sep a' b' Ha') in H1. by simplify_eq.
Qed.

(** *** Prefixes *)
Lemma startswith_app p r : startswith p (p ++ r) = true.
Proof. induction p as [|a p IH]; [done|]. cbn. by rewrite N.eqb_refl. Qed.

Lemma startswith_spec p s :
  startswith p s = true <-> exists r, s = p ++ r.
Proof.
  split; [|intros [r ->]; apply startswith_app].
  revert s. induction p as [|a p IH]; intros s; [by exists s|].
  destruct s as [|b s]; [done|]. cbn.
  intros [->%N.eqb_eq [r ->]%IH]%andb_true_iff. by exists r.
Qed.

Lemma startswith_head_ne a p b s : a <> b -> startswith (a :: p) (b :: s) = false.
Proof. intros Hne. cbn. by destruct (N.eqb_spec a b). Qed.

End PyFacts.

(** ** Facts about the front-matter parser *)
Module FrontMatterFacts.
Import Py FrontMatter Spec PyFacts.

(** *** The loop never raises *)

Lemma parse_line_add_entry metadata line :
  parse_line metadata line = Ok (add_entry metadata line).
Proof.
  unfold parse_line, add_entry, line_entry.
  destruct (strip line) as [|c l] eqn:Hl; [done|].
  rewrite bool_decide_eq_false_2 by done. cbn [orb].
  destruct (contains_char COLON (c :: l)) eqn:Hc; cbn [negb].
  - apply contains_char_spec, cut_first_Some in Hc as (a & b & Hcut & _).
    unfold split_max1. by rewrite Hcut.
  - apply contains_char_false in Hc. by rewrite cut_first_None.
Qed.

Lemma parse_lines_foldl metadata lines :
  parse_lines metadata lines = Ok (foldl add_entry metadata lines).
Proof.
  revert metadata. induction lines as [|line rest IH]; intros metadata; [done|].
  cbn [parse_lines foldl]. rewrite parse_line_add_entry. apply IH.
Qed.

Lemma parse_frontmatter_unfold content :
  parse_frontmatter content =
  match re_match content with
  | None => Ok (∅, content)
  | Some (block, rest) => Ok (foldl add_entry ∅ (split NL block), strip rest)
  end.
Proof.
  unfold parse_frontmatter. destruct (re_match content) as [[block rest]|]; [|done].
  by rewrite parse_lines_foldl.
Qed.

(** *** The pattern *)

Lemma find_close_unfold s :
  find_close s =
  if startswith closing s then Some ([], drop (length closing) s)
  else match s with
       | [] => None
       | c :: s' =>
           match find_close s' with
           | Some (g1, g2) => Some (c :: g1, g2)
           | None => None
           end
       end.
Proof. by destruct s. Qed.

Lemma find_close_Some s g1 g2 :
  find_close s = Some (g1, g2) -> s = g1 ++ closing ++ g2.
Proof.
  revert g1 g2. induction s as [|c s IH]; intros g1 g2.
  - intros H. by vm_compute in H.
  - rewrite find_close_unfold.
    destruct (startswith closing (c :: s)) eqn:Hp.
    + apply startswith_spec in Hp as [r Hr].
      rewrite Hr, drop_app_length. by intros [= <- <-].
    + destruct (find_close s) as [[h1 h2]|]; [|done].
      intros [= <- <-]. cbn [app]. f_equal. by apply IH.
Qed.

Lemma find_close_complete block rest :
  is_Some (find_close (block ++ closing ++ rest)).
Proof.
  induction block as [|c block IH]; rewrite find_close_unfold.
  - cbn [app]. by rewrite startswith_app.
  - destruct (startswith closing _); [done|]. cbn [app].
    destruct IH as [[g1 g2] ->]. done.
Qed.

Lemma re_match_Some content block rest :
  re_match content = Some (block, rest) ->
  content = opening ++ block ++ closing ++ rest.
Proof.
  unfold re_match. destruct (startswith opening content) eqn:Hp; [|done].
  apply startswith_spec in Hp as [r ->]. rewrite drop_app_length.
  by intros ->%find_close_Some.
Qed.

(** The pattern matches exactly the texts that begin with front matter. *)
Lemma re_match_None content :
  re_match content = None <-> ~ has_front_matter content.
Proof.
  split.
  - intros Hnone (block & rest & ->). unfold re_match in Hnone.
    rewrite startswith_app, drop_app_length in Hnone.
    by destruct (find_close_complete block rest) as [? Hs]; rewrite Hs in Hnone.
  - intros Hno. destruct (re_match content) as [[block rest]|] eqn:Hm; [|done].
    destruct Hno. exists block, rest. by apply re_match_Some.
Qed.

(** C1: a text that does not begin with a front-matter pattern parses to
    the empty mapping and the whole text, unchanged, as body; and parsing
    returns a result, never an exception, on every text. *)
Theorem parse_without_front_matter :
  (forall content, exists metadata body,
      parse_frontmatter content = Ok (metadata, body)) /\
  (forall content, ~ has_front_matter content ->
      parse_frontmatter content = Ok (∅, content)).
Proof.
  split; intros content.
  - rewrite parse_frontmatter_unfold.
    destruct (re_match content) as [[block rest]|]; eauto.
  - intros Hno%re_match_None. unfold parse_frontmatter. by rewrite Hno.
Qed.

Lemma parse_without_front_matter_witness :
  let content := doc [lit "---"; lit "title: Notes"; lit "no closing marker"] in
  ~ has_front_matter content /\ parse_frontmatter content = Ok (∅, content).
Proof.
  intros content.
  assert (Hno : ~ has_front_matter content) by (apply re_match_None; reflexivity).
  split; [exact Hno | exact (proj2 parse_without_front_matter content Hno)].
Defined.

(** *** Values *)

Lemma parse_value_bracketed inner :
  parse_value (LBRACK :: inner ++ [RBRACK]) =
  VList (match inner with
         | [] => []
         | _ :: _ => map parse_item (split COMMA inner)
         end).
Proof.
  unfold parse_value.
  rewrite startswith_char_cons, app_comm_cons, endswith_char_snoc.
  cbn [N.eqb Pos.eqb LBRACK RBRACK andb]. by rewrite <- app_comm_cons, slice_wrap.
Qed.

Lemma is_bracketed_inv v :
  is_bracketed v = true -> exists inner, v = LBRACK :: inner ++ [RBRACK].
Proof.
  unfold is_bracketed. intros [Hs He]%andb_true_iff.
  by destruct (ends_inv _ _ _ Hs He) as [[_ [=]]|?].
Qed.

Lemma space_not_comma inner :
  Forall (fun c => isspace c = true) inner -> COMMA ∉ inner.
Proof.
  intros Hall Hin. rewrite Forall_forall in Hall.
  by specialize (Hall _ Hin).
Qed.

(** C10: a bracketed value whose interior is only whitespace parses to
    the one-element sequence holding the empty string; the empty sequence
    comes from the value with an empty interior and from no other. *)
Theorem whitespace_interior_is_one_empty_item :
  (forall inner,
      inner <> [] -> Forall (fun c => isspace c = true) inner ->
      parse_value (LBRACK :: inner ++ [RBRACK]) = VList [[]]) /\
  (forall v, parse_value v = VList [] <-> v = lit "[]").
Proof.
  split.
  - intros inner Hne Hsp. rewrite parse_value_bracketed.
    destruct inner as [|c inner]; [done|].
    rewrite split_no_sep by (by apply space_not_comma).
    cbn [map]. unfold parse_item. by rewrite strip_all_space.
  - intros v. split; [|by intros ->].
    unfold parse_value. fold (is_bracketed v).
    destruct (is_bracketed v) eqn:Hb; [|done].
    apply is_bracketed_inv in Hb as [inner ->].
    rewrite slice_wrap.
    destruct inner as [|c inner]; [done|].
    intros [= Hnil]. apply map_eq_nil in Hnil. by apply split_not_nil in Hnil.
Qed.

Lemma whitespace_interior_is_one_empty_item_witness :
  [SP] <> [] /\ Forall (fun c => isspace c = true) [SP] /\
  parse_value (lit "[ ]") = VList [[]].
Proof.
  assert (H1 : [SP] <> []) by discriminate.
  assert (H2 : Forall (fun c => isspace c = true) [SP])
    by (repeat constructor).
  split_and!; [done..|].
  exact (proj1 whitespace_interior_is_one_empty_item [SP] H1 H2).
Defined.

(** The same on a whole document. *)
Example whitespace_interior_document :
  parse_frontmatter (doc [lit "---"; lit "labels: [ ]"; lit "tags: []"; lit "---"; lit ""])
  = Ok ({[ lit "labels" := VList [[]]; lit "tags" := VList [] ]}, []).
Proof. by vm_compute. Qed.

(** *** The code against the specification's quote stripping *)

Lemma unquote_agrees s :
  s <> [DQ] -> s <> [SQ] ->
  (if is_quoted s then slice_1_m1 s else s) = strip_quote_layer s.
Proof.
  intros Hd Hs. unfold is_quoted, strip_quote_layer, wrapped_in.
  destruct s as [|a [|b t]]; [done| |done].
  cbn. destruct (N.eqb_spec a DQ) as [->|_]; [done|].
  destruct (N.eqb_spec a SQ) as [->|_]; done.
Qed.

Lemma parse_value_scalar_agrees v :
  is_bracketed v = false -> v <> [DQ] -> v <> [SQ] ->
  parse_value v = value_of v.
Proof.
  intros Hb Hd Hs. unfold parse_value, value_of. fold (is_bracketed v).
  by rewrite Hb, unquote_agrees.
Qed.

Lemma parse_value_list_agrees v :
  is_bracketed v = true ->
  (forall piece, piece ∈ split COMMA (slice_1_m1 v) ->
                 strip piece <> [DQ] /\ strip piece <> [SQ]) ->
  parse_value v = value_of v.
Proof.
  intros Hb Hp. unfold parse_value, value_of, list_of. fold (is_bracketed v).
  rewrite Hb. f_equal. destruct (slice_1_m1 v) as [|c inner] eqn:Hin; [done|].
  rewrite bool_decide_eq_false_2 by done.
  apply map_ext_in. intros piece Hpiece%list_elem_of_In.
  unfold parse_item. apply unquote_agrees; by apply Hp.
Qed.

(** C4: on the value made of a lone double quote between brackets the
    parser yields one empty item, where stripping a matching pair of
    quotes from the piece would leave the quote character in place.  The
    examples of the claim come out as stated. *)
Theorem bracketed_lone_quote_item :
  let v := LBRACK :: DQ :: [RBRACK] in
  is_bracketed v = true /\
  parse_value v = VList [[]] /\
  value_of v = VList [[DQ]] /\
  parse_frontmatter (doc [lit "---"; lit "labels: " ++ v; lit "---"; lit ""])
  = Ok ({[ lit "labels" := VList [[]] ]}, []).
Proof. by vm_compute. Qed.

Example bracketed_list_examples :
  parse_value (lit "[" ++ quoted (lit "a") ++ lit ", " ++ quoted (lit "b")
               ++ lit ", " ++ quoted (lit "c") ++ lit "]")
  = VList [lit "a"; lit "b"; lit "c"] /\
  parse_value (lit "[]") = VList [] /\
  parse_value (lit "['x y',z ]") = VList [lit "x y"; lit "z"].
Proof. by vm_compute. Qed.

(** C5: on the scalar value made of a lone double quote the parser
    yields the empty string, where a value not wrapped in a pair of quotes
    is to be kept as it is. *)
Theorem scalar_lone_quote :
  let v := [DQ] in
  is_bracketed v = false /\
  wrapped_in DQ v = false /\ wrapped_in SQ v = false /\
  parse_value v = VStr [] /\
  value_of v = VStr [DQ] /\
  parse_frontmatter (doc [lit "---"; lit "title: " ++ v; lit "---"; lit ""])
  = Ok ({[ lit "title" := VStr [] ]}, []).
Proof. by vm_compute. Qed.

(** Apart from the lone quote, scalars behave as the claim says: a value
    missing its closing bracket is a scalar, and only one layer of quotes
    goes. *)
Example scalar_examples :
  parse_value (lit "[a, b") = VStr (lit "[a, b") /\
  parse_value (quoted (lit "hello")) = VStr (lit "hello") /\
  parse_value (quoted (quoted (lit "hello"))) = VStr (quoted (lit "hello")) /\
  parse_value (lit "'it''s'") = VStr (lit "it''s") /\
  parse_value (lit "plain") = VStr (lit "plain").
Proof. by vm_compute. Qed.

(** *** The closing marker, line by line *)

Lemma NL_notin_marker : NL ∉ marker.
Proof. by intros Hin%list_elem_of_In; vm_compute in Hin; intuition. Qed.

Lemma find_close_no_newline line : NL ∉ line -> find_close line = None.
Proof.
  induction line as [|c line IH]; [done|].
  intros [Hc Hl]%not_elem_of_cons. rewrite find_close_unfold.
  unfold closing at 1. rewrite startswith_head_ne by done. by rewrite IH.
Qed.

(** Within a line nothing matches; at its end the closing marker matches
    when the text goes on with the marker and a newline. *)
Lemma find_close_line line rest :
  NL ∉ line ->
  find_close (line ++ NL :: rest) =
  if startswith opening rest then Some (line, drop (length opening) rest)
  else match find_close rest with
       | Some (g1, g2) => Some (line ++ NL :: g1, g2)
       | None => None
       end.
Proof.
  induction line as [|c line IH].
  - intros _. cbn [app]. rewrite find_close_unfold.
    change (startswith closing (NL :: rest)) with (startswith opening rest).
    destruct (startswith opening rest); [done|].
    by destruct (find_close rest) as [[g1 g2]|].
  - intros [Hc Hl]%not_elem_of_cons. cbn [app]. rewrite find_close_unfold.
    unfold closing at 1. rewrite startswith_head_ne by done.
    rewrite (IH Hl). destruct (startswith opening rest); [done|].
    by destruct (find_close rest) as [[g1 g2]|].
Qed.

Lemma doc_cons_cons l0 l1 rest :
  doc (l0 :: l1 :: rest) = l0 ++ NL :: doc (l1 :: rest).
Proof. reflexivity. Qed.

(** The text that follows begins with a marker line, newline included,
    exactly when its first line is the marker and is not the last line. *)
Lemma startswith_opening_doc l1 rest :
  NL ∉ l1 ->
  startswith opening (doc (l1 :: rest)) = true <-> l1 = marker /\ rest <> [].
Proof.
  intros Hl1. rewrite startswith_spec. unfold opening. split.
  - intros [r Hr]. rewrite <- app_assoc in Hr. cbn [app] in Hr.
    destruct rest as [|l2 rest].
    + cbn in Hr. destruct Hl1. rewrite Hr. set_solver.
    + rewrite doc_cons_cons in Hr.
      apply app_sep_inj in Hr as [-> _]; [done..|apply NL_notin_marker].
  - intros [-> Hne]. destruct rest as [|l2 rest]; [done|].
    rewrite doc_cons_cons. exists (doc (l2 :: rest)).
    by rewrite <- app_assoc.
Qed.

Lemma drop_opening_doc rest :
  rest <> [] -> drop (length opening) (doc (marker :: rest)) = doc rest.
Proof. destruct rest as [|l2 rest]; [done|]. intros _. reflexivity. Qed.

(** No marker line that is followed by a newline: no match. *)
Lemma find_close_doc_None l0 ls :
  Forall (fun l => NL ∉ l) (l0 :: ls) ->
  marker ∉ removelast ls ->
  find_close (doc (l0 :: ls)) = None.
Proof.
  revert l0. induction ls as [|l1 rest IH]; intros l0 [H0 Hls]%Forall_cons Hm.
  - by apply find_close_no_newline.
  - rewrite doc_cons_cons, find_close_line by done.
    pose proof Hls as [H1 Hrest]%Forall_cons.
    destruct (startswith opening (doc (l1 :: rest))) eqn:Hp.
    + apply startswith_opening_doc in Hp as [-> Hne]; [|done].
      destruct rest; [done|]. destruct Hm. cbn. set_solver.
    + rewrite IH; [done..|].
      destruct rest; [set_solver|]. intros Hin. apply Hm. cbn. set_solver.
Qed.

(** The first marker line that is followed by a newline closes the
    block. *)
Lemma find_close_doc_Some l0 pre post :
  Forall (fun l => NL ∉ l) (l0 :: pre) ->
  marker ∉ pre -> post <> [] ->
  find_close (doc (l0 :: pre ++ marker :: post)) = Some (doc (l0 :: pre), doc post).
Proof.
  revert l0. induction pre as [|l1 pre IH]; intros l0 [H0 Hpre]%Forall_cons Hm Hpost.
  - cbn [app]. rewrite doc_cons_cons, find_close_line by done.
    assert (startswith opening (doc (marker :: post)) = true) as ->
      by (by apply startswith_opening_doc; [apply NL_notin_marker|]).
    by rewrite drop_opening_doc.
  - cbn [app]. rewrite doc_cons_cons, find_close_line by done.
    pose proof Hpre as [H1 Hrest]%Forall_cons.
    apply not_elem_of_cons in Hm as [Hne Hm].
    destruct (startswith opening (doc (l1 :: pre ++ marker :: post))) eqn:Hp.
    + apply startswith_opening_doc in Hp as [-> _]; done.
    + by rewrite IH.
Qed.

Lemma doc_split s : doc (split NL s) = s.
Proof. apply join_split. Qed.

Lemma split_lines_no_newline s : Forall (fun l => NL ∉ l) (split NL s).
Proof. apply Forall_forall. intros l. apply split_pieces_no_sep. Qed.

Lemma re_match_opening s :
  re_match (opening ++ s) = find_close s.
Proof. unfold re_match. by rewrite startswith_app, drop_app_length. Qed.

Lemma opening_doc ls : ls <> [] -> opening ++ doc ls = doc (marker :: ls).
Proof.
  destruct ls as [|l ls]; [done|]. intros _. rewrite doc_cons_cons.
  unfold opening. by rewrite <- app_assoc.
Qed.

(** C9: a text that begins with two marker lines is not always left
    without front matter.  Here the line after the opening marker is the
    closing marker, yet the match runs on to the third marker line: the
    second marker line and the line after it are taken as the block, and
    the mapping gets a title. *)
Lemma empty_block_with_later_marker :
  let content :=
    doc [lit "---"; lit "---"; lit "title: x"; lit "---"; lit "body"] in
  parse_frontmatter content = Ok ({[ lit "title" := VStr (lit "x") ]}, lit "body")
  /\ parse_frontmatter content <> Ok (∅, content).
Proof. split; [by vm_compute | by vm_compute]. Qed.

(** Where no later marker line follows, the text is left as it is: a
    text that begins with two marker lines has no front matter when no
    later line is a marker line followed by a newline; a text whose first
    marker line after the opening one is its last line, with no newline
    after it, has no front matter either.  Both parse to the empty mapping
    and the whole text. *)
Theorem marker_without_block_or_newline :
  (forall rest,
      marker ∉ removelast (split NL rest) ->
      parse_frontmatter (opening ++ opening ++ rest)
      = Ok (∅, opening ++ opening ++ rest)) /\
  (forall block,
      Forall (fun l => NL ∉ l) block -> marker ∉ block ->
      parse_frontmatter (doc (marker :: block ++ [marker]))
      = Ok (∅, doc (marker :: block ++ [marker]))).
Proof.
  split.
  - intros rest Hm. unfold parse_frontmatter.
    rewrite re_match_opening, <- (doc_split rest) at 1.
    rewrite opening_doc by apply split_not_nil.
    rewrite find_close_doc_None; [done| |done].
    constructor; [apply NL_notin_marker | apply split_lines_no_newline].
  - intros block Hnl Hm. unfold parse_frontmatter.
    rewrite <- opening_doc at 1 by (by destruct block).
    rewrite re_match_opening.
    destruct block as [|l0 ls]; [done|]. cbn [app].
    rewrite find_close_doc_None; [done| |by rewrite removelast_last; set_solver].
    apply Forall_cons in Hnl as [H0 Hls]. constructor; [done|].
    apply Forall_app. split; [done|]. constructor; [apply NL_notin_marker|done].
Qed.

Lemma marker_without_block_or_newline_witness :
  (let rest := doc [lit "# Heading"; lit "text"; lit "---"] in
   (marker ∉ removelast (split NL rest)) /\
   parse_frontmatter (opening ++ opening ++ rest)
   = Ok (∅, opening ++ opening ++ rest)) /\
  (let block := [lit "title: x"] in
   Forall (fun l => NL ∉ l) block /\ (marker ∉ block) /\
   parse_frontmatter (doc (marker :: block ++ [marker]))
   = Ok (∅, doc (marker :: block ++ [marker]))).
Proof.
  split.
  - intros rest.
    assert (H : marker ∉ removelast (split NL rest))
      by (intros Hin%list_elem_of_In; vm_compute in Hin; intuition discriminate).
    split; [exact H | exact (proj1 marker_without_block_or_newline rest H)].
  - intros block.
    assert (H1 : Forall (fun l => NL ∉ l) block).
    { repeat constructor.
      intros Hin%list_elem_of_In; vm_compute in Hin; intuition discriminate. }
    assert (H2 : marker ∉ block)
      by (intros Hin%list_elem_of_In; vm_compute in Hin; intuition discriminate).
    split_and!; [exact H1 | exact H2 |].
    exact (proj2 marker_without_block_or_newline block H1 H2).
Defined.

(** *** Duplicate keys *)

Lemma add_entry_lookup metadata line k :
  add_entry metadata line !! k =
  match line_entry line with
  | Some (key, v) => if decide (key = k) then Some v else metadata !! k
  | None => metadata !! k
  end.
Proof.
  unfold add_entry. destruct (line_entry line) as [[key v]|]; [|done].
  apply lookup_insert.
Qed.

Lemma foldl_add_entry_other metadata lines k :
  Forall (fun l => add_entry ∅ l !! k = None) lines ->
  foldl add_entry metadata lines !! k = metadata !! k.
Proof.
  revert metadata. induction lines as [|l rest IH]; intros metadata; [done|].
  intros [Hl Hrest]%Forall_cons. cbn [foldl]. rewrite (IH _ Hrest).
  rewrite add_entry_lookup in *. destruct (line_entry l) as [[key v]|]; [|done].
  by destruct (decide (key = k)).
Qed.

Lemma foldl_add_entry_last metadata before line after k v :
  add_entry ∅ line !! k = Some v ->
  Forall (fun l => add_entry ∅ l !! k = None) after ->
  foldl add_entry metadata (before ++ line :: after) !! k = Some v.
Proof.
  intros Hline Hafter. rewrite foldl_app. cbn [foldl].
  rewrite foldl_add_entry_other by done.
  rewrite add_entry_lookup in *. destruct (line_entry line) as [[key w]|]; [|done].
  by destruct (decide (key = k)).
Qed.

(** A dictionary holds one entry per key. *)
Lemma one_entry_per_key (m : gmap (list N) value) k v :
  m !! k = Some v -> filter (fun kv => kv.1 = k) (map_to_list m) = [(k, v)].
Proof.
  intros Hk%elem_of_map_to_list.
  pose proof (NoDup_fst_map_to_list m) as Hnd.
  induction (map_to_list m) as [|[k' v'] l IH]; [set_solver|].
  cbn [fmap list_fmap fst] in Hnd. apply NoDup_cons in Hnd as [Hk' Hnd].
  rewrite filter_cons. cbn [fst]. destruct (decide (k' = k)) as [->|Hne].
  - assert (v' = v) as ->.
    { apply elem_of_cons in Hk as [[= ->]|Hin]; [done|].
      destruct Hk'. apply list_elem_of_fmap. by exists (k, v). }
    f_equal. destruct (filter _ l) as [|[k2 v2] l'] eqn:Hf; [done|].
    assert ((k2, v2) ∈ filter (fun kv : list N * value => kv.1 = k) l) as Hin
      by (rewrite Hf; left).
    apply list_elem_of_filter in Hin as [Heq Hin]. cbn in Heq. subst k2.
    destruct Hk'. apply list_elem_of_fmap. by exists (k, v2).
  - apply IH; [|done]. apply elem_of_cons in Hk as [[= -> ->]|Hin]; done.
Qed.

(** C6: when a key is set on several lines of a block, the mapping holds
    one entry for it, with the value of the last such line. *)
Theorem duplicate_key_last_wins content block rest before line after k v :
  re_match content = Some (block, rest) ->
  split NL block = before ++ line :: after ->
  parse_line ∅ line = Ok {[ k := v ]} ->
  Forall (fun l => exists m, parse_line ∅ l = Ok m /\ m !! k = None) after ->
  exists metadata,
    parse_frontmatter content = Ok (metadata, strip rest) /\
    metadata !! k = Some v /\
    filter (fun kv => kv.1 = k) (map_to_list metadata) = [(k, v)].
Proof.
  intros Hm Hlines Hline Hafter.
  rewrite parse_frontmatter_unfold, Hm, Hlines.
  eexists. split; [done|].
  assert (foldl add_entry ∅ (before ++ line :: after) !! k = Some v) as Hk.
  { apply foldl_add_entry_last.
    - rewrite parse_line_add_entry in Hline. injection Hline as ->.
      apply lookup_singleton_eq.
    - eapply Forall_impl; [exact Hafter|]. intros l (m & Hl & Hnone).
      rewrite parse_line_add_entry in Hl. by injection Hl as ->. }
  split; [done | by apply one_entry_per_key].
Qed.

Lemma duplicate_key_last_wins_witness :
  exists metadata,
    parse_frontmatter
      (doc [lit "---"; lit "title: A"; lit "labels: [x]"; lit "title: B";
            lit "draft: yes"; lit "---"; lit "body"])
    = Ok (metadata, strip (lit "body")) /\
    metadata !! lit "title" = Some (VStr (lit "B")) /\
    filter (fun kv => kv.1 = lit "title") (map_to_list metadata)
    = [(lit "title", VStr (lit "B"))].
Proof.
  apply (duplicate_key_last_wins
           (doc [lit "---"; lit "title: A"; lit "labels: [x]"; lit "title: B";
                 lit "draft: yes"; lit "---"; lit "body"])
           (doc [lit "title: A"; lit "labels: [x]"; lit "title: B"; lit "draft: yes"])
           (lit "body")
           [lit "title: A"; lit "labels: [x]"] (lit "title: B") [lit "draft: yes"]).
  - by vm_compute.
  - by vm_compute.
  - by vm_compute.
  - repeat constructor. eexists. split; [by vm_compute | by vm_compute].
Defined.

End FrontMatterFacts.

(** ** Facts about the issue creator *)
Module IssuesFacts.
Import Py FrontMatter Issues Spec PyFacts FrontMatterFacts.

Section tracker_facts.
Variable gh : list str -> result str.
Variable json_loads : str -> result json.


(** The exceptions the loop itself raises are ordinary ones. *)
Lemma subscript_raises_Exception issue e :
  subscript_title issue = Raise e -> is_Exception (exn_class_of e) = true.
Proof.
  unfold subscript_title.
  destruct issue as [| | | |items|fields]; try by intros [= <-].
  destruct (field _ fields); [done | by intros [= <-]].
Qed.

Lemma scan_raises_Exception issues title e :
  scan issues title = Raise e -> is_Exception (exn_class_of e) = true.
Proof.
  induction issues as [|issue rest IH]; [done|]. cbn [scan].
  destruct (subscript_title issue) as [t|e'] eqn:Hs; cbn.
  - by destruct (equals_str t title).
  - intros [= <-]. by eapply subscript_raises_Exception.
Qed.

Lemma iterate_raises_Exception issues e :
  iterate issues = Raise e -> is_Exception (exn_class_of e) = true.
Proof. destruct issues; cbn; try done; by intros [= <-]. Qed.

(** When the tool and the decoder raise ordinary exceptions only, so
    does the query, and the checker returns. *)
Lemma issue_exists_returns title :
  (forall cmd e, gh cmd = Raise e -> is_Exception (exn_class_of e) = true) ->
  (forall s e, json_loads s = Raise e -> is_Exception (exn_class_of e) = true) ->
  exists out b, issue_exists gh json_loads title = (out, Ok b).
Proof.
  intros Hgh Hjson. unfold issue_exists.
  destruct (query gh json_loads title) as [b|e] eqn:Hq; [by eauto|].
  assert (is_Exception (exn_class_of e) = true) as ->; [|by eauto].
  unfold query in Hq.
  destruct (gh (list_cmd title)) as [out|e1] eqn:H1; cbn in Hq;
    [|injection Hq as <-; by eapply Hgh].
  destruct (json_loads out) as [issues|e2] eqn:H2; cbn in Hq;
    [|injection Hq as <-; by eapply Hjson].
  destruct (iterate issues) as [items|e3] eqn:H3; cbn in Hq;
    [|injection Hq as <-; by eapply iterate_raises_Exception].
  by eapply scan_raises_Exception.
Qed.
End tracker_facts.

(** An interrupt is not an [Exception]; the handler lets it through. *)
Example interrupt_is_not_handled :
  issue_exists (fun _ => Raise (Exn KeyboardInterrupt [])) loads_fails (lit "T")
  = ([], Raise (Exn KeyboardInterrupt [])).
Proof. reflexivity. Qed.

(** The kinds of failure, and two answers that raise nothing. *)
Example issue_exists_examples :
  let title := lit "Fix login bug" in
  issue_exists (gh_prints (lit "not json")) loads_fails title
  = ([lit "Warning: Could not check if issue exists: "
      ++ lit "Expecting value: line 1 column 1 (char 0)"], Ok false) /\
  issue_exists (gh_prints (lit "[1]")) (loads_gives (JArray [JNumber (lit "1")])) title
  = ([lit "Warning: Could not check if issue exists: "
      ++ lit "object is not subscriptable"], Ok false) /\
  issue_exists (gh_prints (lit "[{}]")) (loads_gives (JArray [JObject []])) title
  = ([lit "Warning: Could not check if issue exists: " ++ lit "'title'"], Ok false) /\
  issue_exists (gh_prints (lit "[]")) (loads_gives (JArray [])) title = ([], Ok false) /\
  issue_exists (gh_prints (lit "..."))
    (loads_gives (JArray [JObject [(lit "title", JString (lit "Fix login"))];
                          JObject [(lit "title", JString (lit "Fix login bug"))]])) title
  = ([], Ok true).
Proof. by vm_compute. Qed.

(** *** The creation command *)

Lemma parse_value_scalar_iff v :
  is_bracketed v = false <-> exists s, parse_value v = VStr s.
Proof.
  unfold parse_value. fold (is_bracketed v).
  destruct (is_bracketed v); split; try done; [by intros [? [=]] | by eauto].
Qed.

(** C8: a scalar [labels] value is walked through character by
    character, each character becoming a label argument of its own; a
    list value gives one label argument per item. *)
Theorem scalar_labels_one_flag_per_character content metadata body title :
  parse_frontmatter content = Ok (metadata, body) ->
  metadata !! lit "title" = Some title ->
  let base := [VStr (lit "gh"); VStr (lit "issue"); VStr (lit "create");
               VStr (lit "--title"); title; VStr (lit "--body"); VStr body] in
  (forall text,
      metadata !! lit "labels" = Some (VStr text) ->
      issue_request content
      = Ok (Some (title,
                  base ++ flat_map (fun c => [VStr (lit "--label"); VStr [c]]) text)))
  /\
  (forall items,
      metadata !! lit "labels" = Some (VList items) ->
      issue_request content
      = Ok (Some (title,
                  base ++ flat_map (fun item => [VStr (lit "--label"); VStr item]) items))).
Proof.
  intros Hparse Htitle base.
  assert (Hreq : forall labels,
             metadata !! lit "labels" = Some labels ->
             issue_request content = Ok (Some (title, create_cmd title body labels))).
  { intros labels Hl. unfold issue_request. rewrite Hparse. cbn.
    rewrite !bool_decide_eq_false_2.
    - cbn. by rewrite Htitle, Hl.
    - by rewrite Htitle.
    - intros ->. by rewrite lookup_empty in Htitle. }
  split.
  - intros text Hl. rewrite (Hreq _ Hl). do 3 f_equal.
    unfold create_cmd, base, str_args, each_label. cbn [map app]. do 7 f_equal.
    clear Hl. induction text as [|c text IH]; [done|].
    cbn [map flat_map app]. by rewrite IH.
  - intros items Hl. rewrite (Hreq _ Hl). do 3 f_equal.
    unfold create_cmd, base, str_args, each_label. cbn [map app]. do 7 f_equal.
    clear Hl. induction items as [|item items IH]; [done|].
    cbn [map flat_map app]. by rewrite IH.
Qed.

Lemma scalar_labels_one_flag_per_character_witness :
  issue_request
    (doc [lit "---"; lit "title: Fix login bug"; lit "labels: bug"; lit "---";
          lit "Steps to reproduce"])
  = Ok (Some (VStr (lit "Fix login bug"),
              [VStr (lit "gh"); VStr (lit "issue"); VStr (lit "create");
               VStr (lit "--title"); VStr (lit "Fix login bug");
               VStr (lit "--body"); VStr (lit "Steps to reproduce");
               VStr (lit "--label"); VStr (lit "b");
               VStr (lit "--label"); VStr (lit "u");
               VStr (lit "--label"); VStr (lit "g")])).
Proof.
  pose (content := doc [lit "---"; lit "title: Fix login bug"; lit "labels: bug";
                        lit "---"; lit "Steps to reproduce"]).
  pose (metadata := ({[ lit "title" := VStr (lit "Fix login bug");
                        lit "labels" := VStr (lit "bug") ]} : gmap (list N) value)).
  assert (H1 : parse_frontmatter content = Ok (metadata, lit "Steps to reproduce"))
    by (by vm_compute).
  assert (H2 : metadata !! lit "title" = Some (VStr (lit "Fix login bug")))
    by (by vm_compute).
  assert (H3 : metadata !! lit "labels" = Some (VStr (lit "bug")))
    by (by vm_compute).
  exact (proj1 (scalar_labels_one_flag_per_character content metadata
                  (lit "Steps to reproduce") (VStr (lit "Fix login bug")) H1 H2)
           (lit "bug") H3).
Defined.

(** With brackets the labels stay whole. *)
Example bracketed_labels_whole_words :
  issue_request
    (doc [lit "---"; lit "title: Fix login bug"; lit "labels: [bug, urgent]";
          lit "---"; lit "Steps"])
  = Ok (Some (VStr (lit "Fix login bug"),
              [VStr (lit "gh"); VStr (lit "issue"); VStr (lit "create");
               VStr (lit "--title"); VStr (lit "Fix login bug");
               VStr (lit "--body"); VStr (lit "Steps");
               VStr (lit "--label"); VStr (lit "bug");
               VStr (lit "--label"); VStr (lit "urgent")])).
Proof. by vm_compute. Qed.

End IssuesFacts.

(** ** Facts about the document converter *)
Module ConverterFacts.
Import Py Converter PyFacts.

(** *** Paths *)

Lemma rcut_no_sep sep t : sep ∉ t -> rcut sep t = ([], t).
Proof.
  induction t as [|c t IH]; [done|].
  intros [Hc Ht]%not_elem_of_cons. cbn. rewrite (IH Ht).
  destruct (N.eqb_spec c sep); [congruence|done].
Qed.

Lemma rcut_app sep h t :
  sep ∉ t -> rcut sep (h ++ sep :: t) = (h ++ [sep], t).
Proof.
  intros Ht. induction h as [|c h IH]; cbn.
  - by rewrite rcut_no_sep, N.eqb_refl.
  - rewrite IH. rewrite bool_decide_eq_false_2 by (by destruct h).
    by rewrite orb_true_r.
Qed.

Lemma rstrip_char_snoc c s x :
  rstrip_char c (s ++ [x]) = if (x =? c)%N then rstrip_char c s else s ++ [x].
Proof.
  unfold rstrip_char. rewrite rev_unit. cbn.
  destruct (x =? c)%N; [done|]. cbn. by rewrite rev_involutive.
Qed.

Lemma endswith_char_false_inv c s :
  s <> [] -> endswith_char c s = false ->
  exists s' x, s = s' ++ [x] /\ x <> c.
Proof.
  destruct s as [|x s' _] using rev_ind; [done|]. intros _.
  rewrite endswith_char_snoc. intros Hx%N.eqb_neq. by exists s', x.
Qed.

Lemma dirname_join d n :
  d <> [] -> endswith_char SLASH d = false -> SLASH ∉ n ->
  dirname (d ++ SLASH :: n) = d.
Proof.
  intros Hd Hend Hn. unfold dirname. rewrite rcut_app by done. cbn [fst].
  destruct (endswith_char_false_inv _ _ Hd Hend) as (d' & x & -> & Hx).
  rewrite bool_decide_eq_false_2 by (by destruct d').
  rewrite !forallb_app. cbn [forallb negb andb].
  apply N.eqb_neq in Hx. rewrite Hx, andb_false_r. cbn [andb negb].
  by rewrite !rstrip_char_snoc, N.eqb_refl, Hx.
Qed.

Lemma basename_join d n : SLASH ∉ n -> basename (d ++ SLASH :: n) = n.
Proof. intros Hn. unfold basename. by rewrite rcut_app. Qed.

Lemma path_join_plain a b :
  a <> [] -> endswith_char SLASH a = false -> startswith_char SLASH b = false ->
  path_join a b = a ++ SLASH :: b.
Proof.
  intros Ha Hend Hb. unfold path_join.
  by rewrite Hb, Hend, bool_decide_eq_false_2.
Qed.

Lemma startswith_char_notin c s : c ∉ s -> startswith_char c s = false.
Proof.
  destruct s as [|x s]; [done|]. intros [Hx _]%not_elem_of_cons.
  cbn. by apply N.eqb_neq.
Qed.

Lemma endswith_app p s : endswith p (s ++ p) = true.
Proof. unfold endswith. rewrite rev_app_distr. apply startswith_app. Qed.

(** The extension of a name whose stem does not begin with a dot. *)
Lemma splitext_md stem :
  SLASH ∉ stem -> startswith_char DOT (stem ++ lit ".md") = false ->
  splitext (stem ++ lit ".md") = (stem, lit ".md").
Proof.
  intros Hs Hdot. unfold splitext.
  assert (SLASH ∉ stem ++ lit ".md") as Hname.
  { intros [?|Hin%list_elem_of_In]%elem_of_app; [done|].
    vm_compute in Hin. intuition discriminate. }
  rewrite rcut_no_sep by done.
  change (lit ".md") with (DOT :: lit "md").
  rewrite rcut_app
    by (intros Hin%list_elem_of_In; vm_compute in Hin; intuition discriminate).
  destruct stem as [|c stem]; [done|]. cbn [app].
  rewrite app_comm_cons, removelast_last.
  cbn [forallb]. cbn in Hdot. by rewrite Hdot.
Qed.

(** *** Sequencing *)

Lemma seq_ok out (k : io unit) : seq (out, Ok tt) k = (out ++ k.1, k.2).
Proof. unfold seq, io_bind. by destruct k. Qed.

Lemma seq_nothing (m : io unit) : seq m ([], Ok tt) = m.
Proof.
  destruct m as [out [[]|e]]; unfold seq, io_bind; [|done].
  by rewrite app_nil_r.
Qed.

Lemma try_pandoc_commands run input output :
  commands (try_pandoc run input output).1 = [pandoc_cmd input output].
Proof.
  unfold try_pandoc. destruct (run _) as [[]|e]; [done|].
  destruct (bool_decide _); [done|]. by destruct (is_Exception _).
Qed.

Lemma try_pandoc_no_skip_notice run input output :
  Forall (fun ev => is_skip_notice ev = false) (try_pandoc run input output).1.
Proof.
  unfold try_pandoc. destruct (run _) as [[]|e].
  - by repeat constructor.
  - destruct (bool_decide _); [by repeat constructor|].
    destruct (is_Exception _); by repeat constructor.
Qed.

(** The names that match in a directory that holds the Markdown file
    and the text file. *)
Lemma matches_md_name stem :
  startswith_char DOT (stem ++ lit ".md") = false ->
  matches_md (stem ++ lit ".md") = true.
Proof. intros Hdot. unfold matches_md. by rewrite Hdot, endswith_app. Qed.

Lemma matches_md_txt other_stem : matches_md (other_stem ++ lit ".txt") = false.
Proof.
  unfold matches_md, endswith. rewrite rev_app_distr.
  apply andb_false_r.
Qed.

Lemma glob_md_one listdir glob_wild d stem other_stem :
  d <> [] -> endswith_char SLASH d = false -> has_magic d = false ->
  SLASH ∉ stem -> startswith_char DOT (stem ++ lit ".md") = false ->
  (listdir d = [stem ++ lit ".md"; other_stem ++ lit ".txt"]
   \/ listdir d = [other_stem ++ lit ".txt"; stem ++ lit ".md"]) ->
  glob_md listdir glob_wild d = [d ++ SLASH :: stem ++ lit ".md"].
Proof.
  intros Hd Hend Hmagic Hstem Hdot Hls. unfold glob_md.
  rewrite (path_join_plain d (lit "*.md")) by done.
  rewrite dirname_join; [|done..|].
  2:{ intros Hin%list_elem_of_In; vm_compute in Hin; intuition discriminate. }
  rewrite bool_decide_eq_false_2, Hmagic by done.
  assert (filter (fun n => matches_md n = true) (listdir d) = [stem ++ lit ".md"]) as ->.
  { destruct Hls as [-> | ->].
    - rewrite filter_cons_True by (by apply matches_md_name).
      rewrite filter_cons_False; [done|]. by rewrite matches_md_txt.
    - rewrite filter_cons_False by (by rewrite matches_md_txt).
      by rewrite filter_cons_True by (by apply matches_md_name). }
  cbn [map]. f_equal. apply path_join_plain; [done..|].
  apply startswith_char_notin.
  intros [?|Hin%list_elem_of_In]%elem_of_app; [done|].
  vm_compute in Hin. intuition discriminate.
Qed.

Lemma lower_md_suffix s : endswith (lit ".md") (lower (s ++ lit ".md")) = true.
Proof.
  unfold lower. rewrite map_app.
  change (map lower_char (lit ".md")) with (lit ".md"). apply endswith_app.
Qed.

Lemma notin_app_lit c (s : str) (text : string) :
  c ∉ s -> contains_char c (lit text) = false -> c ∉ s ++ lit text.
Proof.
  intros Hs Ht%contains_char_false. by intros [?|?]%elem_of_app.
Qed.

(** One Markdown file of a directory [d]: the output goes to
    [d/converted], under the name of the input with the extension
    replaced. *)
Lemma convert_file_md makedirs run d stem :
  let input := d ++ SLASH :: stem ++ lit ".md" in
  let output_dir := d ++ SLASH :: lit "converted" in
  let output := output_dir ++ SLASH :: stem ++ lit ".docx" in
  d <> [] -> endswith_char SLASH d = false ->
  SLASH ∉ stem -> startswith_char DOT (stem ++ lit ".md") = false ->
  makedirs output_dir = Ok tt ->
  convert_file makedirs run input
  = ([MakeDirs output_dir;
      Print (lit "Converting " ++ input ++ lit " -> " ++ output ++ lit "...")]
     ++ (try_pandoc run input output).1,
     (try_pandoc run input output).2).
Proof.
  intros input output_dir output Hd Hend Hstem Hdot Hmk.
  subst input output_dir output.
  assert (SLASH ∉ stem ++ lit ".md") as Hname by (by apply notin_app_lit).
  unfold convert_file.
  replace (endswith (lit ".md") (lower (d ++ SLASH :: stem ++ lit ".md")))
    with true
    by (by rewrite app_comm_cons, app_assoc, lower_md_suffix).
  cbn [negb].
  rewrite dirname_join, basename_join by done.
  rewrite splitext_md by done. cbn [fst].
  rewrite (path_join_plain d (lit "converted")) by done.
  rewrite (path_join_plain (d ++ SLASH :: lit "converted")).
  - rewrite Hmk, seq_ok. unfold emit. by rewrite seq_ok.
  - by destruct d.
  - unfold endswith_char. by rewrite last_app.
  - apply startswith_char_notin. by apply notin_app_lit.
Qed.


(** C3, as the code has it: the directory [docs] holds [notes.md] and
    [readme.txt]; the run converts the first and prints nothing about
    the second, which the scan for Markdown files never sees. *)
Lemma txt_file_in_directory_not_reported :
  let events :=
    (process_path Sample.isfile Sample.isdir Sample.listdir Sample.glob_wild
       Sample.makedirs Sample.run (lit "docs")).1 in
  events
  = [Print (lit "Scanning directory: docs");
     MakeDirs (lit "docs/converted");
     Print (lit "Converting docs/notes.md -> docs/converted/notes.docx...");
     RunCmd [lit "pandoc"; lit "docs/notes.md"; lit "-f"; lit "markdown";
             lit "-t"; lit "docx"; lit "-o"; lit "docs/converted/notes.docx"];
     Print (lit "Success: Created docs/converted/notes.docx")]
  /\ (Print (lit "Skipping docs/readme.txt: Not a markdown file.") ∉ events)
  /\ Forall (fun ev => is_skip_notice ev = false) events.
Proof.
  assert ((process_path Sample.isfile Sample.isdir Sample.listdir Sample.glob_wild
             Sample.makedirs Sample.run (lit "docs")).1
          = [Print (lit "Scanning directory: docs");
             MakeDirs (lit "docs/converted");
             Print (lit "Converting docs/notes.md -> docs/converted/notes.docx...");
             RunCmd [lit "pandoc"; lit "docs/notes.md"; lit "-f"; lit "markdown";
                     lit "-t"; lit "docx"; lit "-o"; lit "docs/converted/notes.docx"];
             Print (lit "Success: Created docs/converted/notes.docx")]) as Hrun
    by (by vm_compute).
  cbv zeta. rewrite Hrun. split_and!; [done| |by repeat constructor].
  intros Hin%list_elem_of_In. vm_compute in Hin. intuition discriminate.
Qed.

(** The notice is printed for a file that is named on the command line. *)
Example txt_file_argument_reported :
  process_path Sample.isfile Sample.isdir Sample.listdir Sample.glob_wild
    Sample.makedirs Sample.run (lit "docs/readme.txt")
  = ([Print (lit "Skipping docs/readme.txt: Not a markdown file.")], Ok tt).
Proof. by vm_compute. Qed.

Lemma rstrip_char_replicate c base k :
  rstrip_char c (base ++ replicate k c) = rstrip_char c base.
Proof.
  induction k as [|k IH]; [by rewrite app_nil_r|].
  by rewrite replicate_S_end, app_assoc, rstrip_char_snoc, N.eqb_refl.
Qed.

Lemma rstrip_char_keep c s : endswith_char c s = false -> rstrip_char c s = s.
Proof.
  destruct s as [|x s _] using rev_ind; [done|].
  rewrite endswith_char_snoc, rstrip_char_snoc. by intros ->.
Qed.

(** The directory of a name under [base], however many slashes lie
    between the two. *)
Lemma dirname_slashes base k name :
  base <> [] -> endswith_char SLASH base = false -> SLASH ∉ name ->
  dirname (base ++ replicate k SLASH ++ SLASH :: name) = base.
Proof.
  intros Hb Hend Hn. unfold dirname.
  rewrite app_assoc, rcut_app by done. cbn [fst].
  destruct (endswith_char_false_inv _ _ Hb Hend) as (b' & x & -> & Hx).
  rewrite bool_decide_eq_false_2 by (by destruct b').
  rewrite !forallb_app. cbn [forallb].
  apply N.eqb_neq in Hx. rewrite Hx, !andb_false_r. cbn [andb negb].
  rewrite rstrip_char_snoc, N.eqb_refl, rstrip_char_replicate.
  by rewrite rstrip_char_snoc, Hx.
Qed.

Lemma path_join_slashes base n x :
  base <> [] -> endswith_char SLASH base = false ->
  startswith_char SLASH x = false ->
  exists k, path_join (base ++ replicate n SLASH) x
            = base ++ replicate k SLASH ++ SLASH :: x.
Proof.
  intros Hb Hend Hx. destruct n as [|n].
  - exists 0. cbn [replicate]. rewrite app_nil_r. by apply path_join_plain.
  - exists n. unfold path_join. rewrite Hx, replicate_S_end.
    rewrite bool_decide_eq_false_2 by (by destruct base).
    rewrite (app_assoc base), endswith_char_snoc, N.eqb_refl. cbn [orb].
    by rewrite <- !app_assoc.
Qed.

Lemma glob_md_slashes listdir glob_wild base n stem other_stem :
  base <> [] -> endswith_char SLASH base = false -> has_magic base = false ->
  SLASH ∉ stem -> startswith_char DOT (stem ++ lit ".md") = false ->
  (listdir base = [stem ++ lit ".md"; other_stem ++ lit ".txt"]
   \/ listdir base = [other_stem ++ lit ".txt"; stem ++ lit ".md"]) ->
  glob_md listdir glob_wild (base ++ replicate n SLASH)
  = [base ++ SLASH :: stem ++ lit ".md"].
Proof.
  intros Hb Hend Hmagic Hstem Hdot Hls. unfold glob_md.
  destruct (path_join_slashes base n (lit "*.md") Hb Hend eq_refl) as [k ->].
  rewrite dirname_slashes; [|done..|].
  2:{ intros Hin%list_elem_of_In; vm_compute in Hin; intuition discriminate. }
  rewrite bool_decide_eq_false_2, Hmagic by done.
  assert (filter (fun n => matches_md n = true) (listdir base)
          = [stem ++ lit ".md"]) as ->.
  { destruct Hls as [-> | ->].
    - rewrite filter_cons_True by (by apply matches_md_name).
      rewrite filter_cons_False; [done|]. by rewrite matches_md_txt.
    - rewrite filter_cons_False by (by rewrite matches_md_txt).
      by rewrite filter_cons_True by (by apply matches_md_name). }
  cbn [map]. f_equal. apply path_join_plain; [done..|].
  apply startswith_char_notin. by apply notin_app_lit.
Qed.

(** C3, amended: the converter is given a directory as [base], a path
    that is not empty, does not end in a slash and has no wildcard
    character, followed by any number of slashes.  The directory holds
    one Markdown file, whose name does not begin with a dot, and one text
    file, and the [converted] subdirectory can be made.  Then the tool is
    run once, on the Markdown file, with the output in the [converted]
    subdirectory under the same base name, and no skip notice is printed:
    the text file is not reported.  A path that does not end in the
    Markdown extension and is given as a file gets the skip notice. *)
Theorem directory_with_md_and_txt
    isfile isdir listdir glob_wild makedirs run base n stem other_stem :
  let d := base ++ replicate n SLASH in
  let input := base ++ SLASH :: stem ++ lit ".md" in
  let output_dir := base ++ SLASH :: lit "converted" in
  let output := output_dir ++ SLASH :: stem ++ lit ".docx" in
  let result := process_path isfile isdir listdir glob_wild makedirs run d in
  isfile d = false -> isdir d = true ->
  base <> [] -> endswith_char SLASH base = false -> has_magic base = false ->
  SLASH ∉ stem -> startswith_char DOT (stem ++ lit ".md") = false ->
  (listdir base = [stem ++ lit ".md"; other_stem ++ lit ".txt"]
   \/ listdir base = [other_stem ++ lit ".txt"; stem ++ lit ".md"]) ->
  makedirs output_dir = Ok tt ->
  result
  = ([Print (lit "Scanning directory: " ++ d);
      MakeDirs output_dir;
      Print (lit "Converting " ++ input ++ lit " -> " ++ output ++ lit "...")]
     ++ (try_pandoc run input output).1,
     (try_pandoc run input output).2)
  /\ commands result.1 = [pandoc_cmd input output]
  /\ Forall (fun ev => is_skip_notice ev = false) result.1
  /\ (forall p,
        isfile p = true -> endswith (lit ".md") (lower p) = false ->
        process_path isfile isdir listdir glob_wild makedirs run p
        = ([Print (lit "Skipping " ++ p ++ lit ": Not a markdown file.")], Ok tt)).
Proof.
  intros d input output_dir output result Hfile Hdir Hb Hend Hmagic Hstem Hdot Hls Hmk.
  assert (result
          = ([Print (lit "Scanning directory: " ++ d);
              MakeDirs output_dir;
              Print (lit "Converting " ++ input ++ lit " -> " ++ output ++ lit "...")]
             ++ (try_pandoc run input output).1,
             (try_pandoc run input output).2)) as Hres.
  { unfold result, process_path. rewrite Hfile, Hdir. unfold d.
    rewrite (glob_md_slashes listdir glob_wild base n stem other_stem) by done.
    rewrite bool_decide_eq_false_2 by done.
    unfold emit. rewrite !seq_ok. cbn [for_each fst snd app].
    rewrite seq_nothing.
    by rewrite (convert_file_md makedirs run base stem) by done. }
  rewrite Hres. cbn [fst]. split_and!; [done| | |].
  - unfold commands. rewrite flat_map_app. cbn [flat_map app].
    apply try_pandoc_commands.
  - apply Forall_app. split; [by repeat constructor|].
    apply try_pandoc_no_skip_notice.
  - intros p Hp Hext. unfold process_path, convert_file. by rewrite Hp, Hext.
Qed.

Lemma directory_with_md_and_txt_witness :
  let result :=
    process_path ConverterMain.SampleSlash.isfile ConverterMain.SampleSlash.isdir Sample.listdir Sample.glob_wild
      Sample.makedirs Sample.run (lit "docs/") in
  result
  = ([Print (lit "Scanning directory: docs/");
      MakeDirs (lit "docs/converted");
      Print (lit "Converting docs/notes.md -> docs/converted/notes.docx...");
      RunCmd (pandoc_cmd (lit "docs/notes.md") (lit "docs/converted/notes.docx"));
      Print (lit "Success: Created docs/converted/notes.docx")],
     Ok tt)
  /\ commands result.1
     = [pandoc_cmd (lit "docs/notes.md") (lit "docs/converted/notes.docx")]
  /\ Forall (fun ev => is_skip_notice ev = false) result.1.
Proof.
  pose proof (directory_with_md_and_txt
                ConverterMain.SampleSlash.isfile ConverterMain.SampleSlash.isdir Sample.listdir Sample.glob_wild
                Sample.makedirs Sample.run (lit "docs") 1 (lit "notes") (lit "readme"))
    as H.
  cbv zeta in H.
  destruct H as (H1 & H2 & H3 & _).
  - reflexivity.
  - reflexivity.
  - discriminate.
  - reflexivity.
  - reflexivity.
  - intros Hin%list_elem_of_In. vm_compute in Hin. intuition discriminate.
  - reflexivity.
  - left. reflexivity.
  - reflexivity.
  - split_and!; [exact H1 | exact H2 | exact H3].
Defined.

End ConverterFacts.

(** ** Writing the metadata back and reading it again *)
Module RoundTrip.
Import Py FrontMatter Spec PyFacts FrontMatterFacts.

(** *** What the parser guarantees *)

Lemma slice_elem_of c s : c ∈ slice_1_m1 s -> c ∈ s.
Proof.
  unfold slice_1_m1. intros Hin. by apply (subseteq_drop 1), (subseteq_take _ _ _ Hin).
Qed.

Lemma parse_item_elem_of c piece : c ∈ parse_item piece -> c ∈ piece.
Proof.
  unfold parse_item. destruct (is_quoted _).
  - by intros ?%slice_elem_of%strip_elem_of.
  - apply strip_elem_of.
Qed.

Lemma parse_value_ok v : NL ∉ v -> value_ok (parse_value v).
Proof.
  intros Hnl. unfold parse_value.
  destruct (_ && _); cbn.
  - destruct (slice_1_m1 v) as [|c inner] eqn:Hin; [done|]. rewrite <- Hin.
    apply Forall_forall. intros item (piece & -> & Hpiece)%list_elem_of_fmap.
    split; intros Hc%parse_item_elem_of.
    + by apply split_pieces_no_sep in Hpiece.
    + apply Hnl, slice_elem_of. by eapply split_pieces_elem_of.
  - destruct (is_quoted v); [|done]. by intros ?%slice_elem_of.
Qed.

Lemma line_entry_ok line k v :
  NL ∉ line -> line_entry line = Some (k, v) -> key_ok k /\ value_ok v.
Proof.
  intros Hnl. unfold line_entry.
  destruct (cut_first COLON (strip line)) as [[a b]|] eqn:Hcut; [|done].
  intros [= <- <-].
  assert (COLON ∈ strip line) as Hin.
  { apply contains_char_spec. destruct (contains_char COLON (strip line)) eqn:Hc; [done|].
    apply contains_char_false in Hc. by rewrite cut_first_None in Hcut. }
  destruct (cut_first_Some COLON _ Hin) as (a' & b' & Hcut' & Hline & Ha).
  rewrite Hcut in Hcut'. injection Hcut' as <- <-.
  assert (forall c, c ∈ a \/ c ∈ b -> c ∈ line) as Hsub.
  { intros c Hc. apply strip_elem_of. rewrite Hline.
    rewrite elem_of_app, elem_of_cons. tauto. }
  split; [split_and!|].
  - apply strip_idemp.
  - by intros ?%strip_elem_of.
  - intros ?%strip_elem_of. apply Hnl, Hsub. by left.
  - apply parse_value_ok. intros ?%strip_elem_of. apply Hnl, Hsub. by right.
Qed.

Lemma add_entry_ok m line :
  NL ∉ line -> entries_ok m -> entries_ok (add_entry m line).
Proof.
  intros Hnl Hm k v. unfold add_entry.
  destruct (line_entry line) as [[key w]|] eqn:Hl; [|apply Hm].
  rewrite lookup_insert. destruct (decide (key = k)) as [->|_]; [|apply Hm].
  intros [= <-]. by eapply line_entry_ok.
Qed.

Lemma foldl_add_entry_ok m lines :
  Forall (fun l => NL ∉ l) lines -> entries_ok m ->
  entries_ok (foldl add_entry m lines).
Proof.
  revert m. induction lines as [|l rest IH]; intros m; [done|].
  intros [Hl Hrest]%Forall_cons Hm. cbn [foldl].
  apply IH; [done|]. by apply add_entry_ok.
Qed.

(** Every mapping the parser returns satisfies the guarantees. *)
Lemma parse_frontmatter_entries_ok content m body :
  parse_frontmatter content = Ok (m, body) -> entries_ok m.
Proof.
  rewrite parse_frontmatter_unfold.
  destruct (re_match content) as [[block rest]|]; intros [= <- <-].
  - apply foldl_add_entry_ok; [apply split_lines_no_newline|].
    intros k v. by rewrite lookup_empty.
  - intros k v. by rewrite lookup_empty.
Qed.

(** *** Reading one written line *)

Lemma strip_eq_stripped s : strip s = s -> stripped s.
Proof. intros <-. apply strip_stripped. Qed.

Lemma strip_after_space sv : stripped sv -> strip (SP :: sv) = sv.
Proof.
  intros [Hh Hl]. unfold strip, lstrip. cbn [drop_while].
  change (isspace SP) with true. cbn match.
  rewrite drop_while_keep by done. by apply rstrip_keep.
Qed.

Lemma strip_written_line k sv :
  stripped k -> stripped sv ->
  strip (k ++ COLON :: SP :: sv)
  = k ++ COLON :: match sv with [] => [] | _ :: _ => SP :: sv end.
Proof.
  intros [Hkh _] [_ Hsl]. unfold strip, lstrip.
  rewrite drop_while_keep.
  2:{ destruct k as [|c k]; cbn; intros x [= <-]; [done|]. by apply Hkh. }
  destruct sv as [|c sv].
  - change (k ++ [COLON; SP]) with (k ++ [COLON] ++ [SP]).
    rewrite app_assoc, rstrip_snoc. change (isspace SP) with true. cbn match.
    by rewrite rstrip_snoc.
  - apply rstrip_keep. intros x.
    rewrite (last_app_cons k), !last_cons_cons. apply Hsl.
Qed.

Lemma line_entry_written k sv :
  key_ok k -> stripped sv ->
  line_entry (k ++ COLON :: SP :: sv) = Some (k, parse_value sv).
Proof.
  intros (Hk & Hcolon & _) Hsv. unfold line_entry.
  rewrite strip_written_line; [|by apply strip_eq_stripped|done].
  rewrite cut_first_app by done. rewrite Hk. do 3 f_equal.
  destruct sv as [|c sv]; [done|]. by apply strip_after_space.
Qed.

(** *** Reading one written value *)

Lemma quoted_stripped x : stripped (quoted x).
Proof.
  split; intros c.
  - by intros [= <-].
  - unfold quoted. rewrite app_comm_cons, last_snoc. by intros [= <-].
Qed.

Lemma parse_item_quoted x : parse_item (quoted x) = x.
Proof.
  unfold parse_item. rewrite stripped_strip by apply quoted_stripped.
  unfold is_quoted, quoted.
  rewrite startswith_char_cons, app_comm_cons, endswith_char_snoc.
  rewrite N.eqb_refl. cbn [andb orb]. by rewrite <- app_comm_cons, slice_wrap.
Qed.

Lemma parse_item_space_quoted x : parse_item (SP :: quoted x) = x.
Proof.
  rewrite <- (parse_item_quoted x) at 2. unfold parse_item.
  rewrite strip_after_space by apply quoted_stripped.
  by rewrite stripped_strip by apply quoted_stripped.
Qed.

Lemma split_join_comma_space q qs :
  Forall (fun p => COMMA ∉ p) (q :: qs) ->
  split COMMA (join (lit ", ") (q :: qs)) = q :: map (cons SP) qs.
Proof.
  revert q. induction qs as [|p qs IH]; intros q [Hq Hqs]%Forall_cons.
  - by apply split_no_sep.
  - change (join (lit ", ") (q :: p :: qs))
      with (q ++ COMMA :: SP :: join (lit ", ") (p :: qs)).
    rewrite split_app_sep by done. rewrite split_cons, (IH p Hqs). done.
Qed.

Lemma quoted_no_comma x : COMMA ∉ x -> COMMA ∉ quoted x.
Proof.
  intros Hx. unfold quoted. rewrite not_elem_of_cons, not_elem_of_app.
  split_and!; [done..|]. by intros [=]%list_elem_of_singleton.
Qed.

Lemma parse_written_list items :
  Forall (fun item => COMMA ∉ item) items ->
  parse_value (serialize_value (VList items)) = VList items.
Proof.
  intros Hitems. cbn [serialize_value]. rewrite parse_value_bracketed. f_equal.
  destruct items as [|x items]; [done|].
  assert (join (lit ", ") (map quoted (x :: items)) <> []) as Hne.
  { cbn [map]. by destruct items. }
  destruct (join _ _) as [|c inner] eqn:Hj; [done|]. rewrite <- Hj.
  cbn [map]. rewrite split_join_comma_space.
  2:{ rewrite <- (map_cons quoted). apply Forall_fmap.
      eapply Forall_impl; [exact Hitems|]. apply quoted_no_comma. }
  cbn [map]. rewrite parse_item_quoted. f_equal.
  rewrite !map_map. clear. induction items as [|y items IH]; [done|].
  cbn [map]. by rewrite parse_item_space_quoted, IH.
Qed.

Lemma parse_written_scalar s :
  plain s = true -> parse_value (serialize_value (VStr s)) = VStr s.
Proof.
  unfold plain. intros [[_ Hb%negb_true_iff]%andb_true_iff Hq%negb_true_iff]%andb_true_iff.
  cbn [serialize_value]. unfold parse_value. fold (is_bracketed s).
  by rewrite Hb, Hq.
Qed.

Lemma parse_written_value v :
  value_ok v -> supported_value v = true ->
  parse_value (serialize_value v) = v.
Proof.
  destruct v as [s|items]; intros Hok Hsup.
  - by apply parse_written_scalar.
  - apply parse_written_list. eapply Forall_impl; [exact Hok|]. by intros ? [].
Qed.

Lemma written_value_stripped v :
  supported_value v = true -> stripped (serialize_value v).
Proof.
  destruct v as [s|items]; cbn.
  - unfold plain. intros [[Hs%bool_decide_eq_true _]%andb_true_iff _]%andb_true_iff.
    by apply strip_eq_stripped.
  - intros _. split; intros c.
    + by intros [= <-].
    + rewrite app_comm_cons, last_snoc. by intros [= <-].
Qed.

Lemma line_entry_serialized k v :
  key_ok k -> value_ok v -> supported_value v = true ->
  line_entry (serialize_line (k, v)) = Some (k, v).
Proof.
  intros Hk Hv Hsup. unfold serialize_line. cbn [fst snd].
  change (lit ": " ++ serialize_value v) with (COLON :: SP :: serialize_value v).
  rewrite line_entry_written; [|done|by apply written_value_stripped].
  by rewrite parse_written_value.
Qed.

(** *** The written document *)

Lemma written_list_no_newline items :
  Forall (fun item => (COMMA ∉ item) /\ (NL ∉ item)) items ->
  NL ∉ join (lit ", ") (map quoted items).
Proof.
  induction items as [|x [|y items] IH]; intros Hall.
  - apply not_elem_of_nil.
  - apply Forall_cons in Hall as [[_ Hx] _]. cbn [map join]. unfold quoted.
    rewrite not_elem_of_cons, not_elem_of_app. split_and!; [done..|].
    by intros [=]%list_elem_of_singleton.
  - apply Forall_cons in Hall as [[_ Hx] Hrest].
    change (join (lit ", ") (map quoted (x :: y :: items)))
      with (quoted x ++ lit ", " ++ join (lit ", ") (map quoted (y :: items))).
    unfold quoted at 1. rewrite !not_elem_of_app, !not_elem_of_cons, not_elem_of_app.
    split_and!; try done.
    + by intros [=]%list_elem_of_singleton.
    + intros Hin%list_elem_of_In. vm_compute in Hin. intuition discriminate.
    + by apply IH.
Qed.

Lemma written_value_no_newline v : value_ok v -> NL ∉ serialize_value v.
Proof.
  destruct v as [s|items]; [done|]. intros Hok. cbn [serialize_value].
  rewrite not_elem_of_cons, not_elem_of_app. split_and!; [done| |].
  - by apply written_list_no_newline.
  - by intros [=]%list_elem_of_singleton.
Qed.

Lemma written_line_no_newline k v :
  key_ok k -> value_ok v -> NL ∉ serialize_line (k, v).
Proof.
  intros (_ & _ & Hk) Hv. unfold serialize_line. cbn [fst snd].
  rewrite !not_elem_of_app. split_and!; [done| |by apply written_value_no_newline].
  intros Hin%list_elem_of_In. vm_compute in Hin. intuition discriminate.
Qed.

Lemma written_line_not_marker kv : serialize_line kv <> marker.
Proof.
  intros Heq. assert (COLON ∈ marker) as Hin.
  { rewrite <- Heq. unfold serialize_line. rewrite !elem_of_app. right. left.
    by apply list_elem_of_In; left. }
  apply list_elem_of_In in Hin. vm_compute in Hin. intuition discriminate.
Qed.

Lemma foldl_add_entry_serialized m0 kvs :
  Forall entry_ok kvs ->
  foldl add_entry m0 (map serialize_line kvs)
  = foldl (fun m kv => <[kv.1 := kv.2]> m) m0 kvs.
Proof.
  revert m0. induction kvs as [|[k v] kvs IH]; intros m0; [done|].
  intros [(Hk & Hv & Hs) Hrest]%Forall_cons. cbn [map foldl].
  rewrite <- (IH _ Hrest). f_equal. unfold add_entry.
  by rewrite line_entry_serialized.
Qed.

(** Inserting the entries of a dictionary one by one rebuilds it. *)
Lemma foldl_insert_lookup (kvs : list (list N * value)) (m0 : gmap (list N) value) k :
  NoDup kvs.*1 ->
  foldl (fun m kv => <[kv.1 := kv.2]> m) m0 kvs !! k
  = match (list_to_map kvs : gmap (list N) value) !! k with
    | Some v => Some v
    | None => m0 !! k
    end.
Proof.
  revert m0. induction kvs as [|[k1 v1] kvs IH]; intros m0; [done|].
  cbn [fmap list_fmap fst]. intros [Hk1 Hnd]%NoDup_cons.
  cbn [foldl fst snd]. rewrite (IH _ Hnd), list_to_map_cons.
  destruct (decide (k1 = k)) as [->|Hne].
  - rewrite !lookup_insert_eq. by rewrite (not_elem_of_list_to_map_1 _ _ Hk1).
  - by rewrite !lookup_insert_ne.
Qed.

Lemma foldl_insert_map_to_list (m : gmap (list N) value) :
  foldl (fun acc kv => <[kv.1 := kv.2]> acc) ∅ (map_to_list m) = m.
Proof.
  apply map_eq. intros k.
  rewrite foldl_insert_lookup by apply NoDup_fst_map_to_list.
  rewrite list_to_map_to_list, lookup_empty. by destruct (m !! k).
Qed.

Lemma doc_snoc_closing ls :
  ls <> [] -> doc ls ++ closing = doc (ls ++ [marker; []]).
Proof.
  induction ls as [|l [|l' rest] IH]; [done| |].
  - intros _. reflexivity.
  - intros _. specialize (IH ltac:(done)).
    rewrite doc_cons_cons, <- app_assoc. cbn [app].
    by rewrite IH.
Qed.

Lemma supported_lookup m k v :
  supported m = true -> m !! k = Some v -> supported_value v = true.
Proof.
  unfold supported. rewrite forallb_forall. intros Hall Hk.
  apply (Hall (k, v)). by apply list_elem_of_In, elem_of_map_to_list.
Qed.

(** C2: a mapping that the parser returned, whose scalar values are in
    the supported subset, is read back unchanged from its serialization:
    one [key: value] line per entry between two marker lines, lists in
    bracketed, comma-separated, quoted form. *)
Theorem serialize_parse_round_trip content m body :
  parse_frontmatter content = Ok (m, body) ->
  supported m = true ->
  parse_frontmatter (serialize m) = Ok (m, []).
Proof.
  intros Hok%parse_frontmatter_entries_ok Hsup.
  assert (Forall entry_ok (map_to_list m)) as Hentries.
  { apply Forall_forall. intros [k v] Hkv%elem_of_map_to_list.
    destruct (Hok k v Hkv) as [Hk Hv]. split_and!; [done..|].
    by eapply supported_lookup. }
  rewrite parse_frontmatter_unfold. unfold serialize. rewrite re_match_opening.
  destruct (map_to_list m) as [|kv kvs] eqn:Hlist.
  - apply map_to_list_empty_iff in Hlist as ->. reflexivity.
  - fold (doc (map serialize_line (kv :: kvs))).
    rewrite doc_snoc_closing by done. cbn [map app].
    rewrite (find_close_doc_Some _ _ [[]]).
    + change (strip (doc [[]])) with (@nil N).
      rewrite <- (map_cons serialize_line).
      fold (doc (map serialize_line (kv :: kvs))). unfold doc.
      rewrite split_join.
      * rewrite foldl_add_entry_serialized by done.
        by rewrite <- Hlist, foldl_insert_map_to_list.
      * done.
      * apply Forall_fmap. eapply Forall_impl; [exact Hentries|].
        intros [k v] (Hk & Hv & _). by apply written_line_no_newline.
    + rewrite <- (map_cons serialize_line). apply Forall_fmap.
      eapply Forall_impl; [exact Hentries|].
      intros [k v] (Hk & Hv & _). by apply written_line_no_newline.
    + intros (kv' & Heq & _)%list_elem_of_fmap.
      by apply (written_line_not_marker kv').
    + done.
Qed.

Lemma serialize_parse_round_trip_witness :
  let m : gmap (list N) value :=
    {[ lit "title" := VStr (lit "Fix login bug");
       lit "labels" := VList [lit "bug"; lit "urgent"] ]} in
  parse_frontmatter (serialize m) = Ok (m, []).
Proof.
  intros m.
  apply (serialize_parse_round_trip
           (doc [lit "---"; lit "title: " ++ quoted (lit "Fix login bug");
                 lit "labels: [" ++ quoted (lit "bug") ++ lit ", "
                 ++ quoted (lit "urgent") ++ lit "]";
                 lit "---"; lit "Steps to reproduce"])
           m (lit "Steps to reproduce")).
  - by vm_compute.
  - by vm_compute.
Defined.

(** Outside the supported subset the scalar is not read back as it was
    written: a value that keeps blanks inside its quotes loses them. *)
Example quoted_blanks_not_read_back :
  let content := doc [lit "---"; lit "title: " ++ quoted (lit " a "); lit "---"; lit ""] in
  parse_frontmatter content = Ok ({[ lit "title" := VStr (lit " a ") ]}, []) /\
  parse_frontmatter (serialize {[ lit "title" := VStr (lit " a ") ]})
  = Ok ({[ lit "title" := VStr (lit "a") ]}, []).
Proof. by vm_compute. Qed.

End RoundTrip.

(** ** More about the front-matter parser *)
Module ParserMore.
Import Py FrontMatter Spec PyFacts FrontMatterFacts RoundTrip.

Lemma split_doc ls :
  ls <> [] -> Forall (fun l => NL ∉ l) ls -> split NL (doc ls) = ls.
Proof. apply split_join. Qed.

(** X1: the block ends at the first marker line that is followed by a
    newline; what comes after it, later marker lines included, is the
    body, trimmed. *)
Theorem block_ends_at_first_marker_line l0 pre post m :
  Forall (fun l => NL ∉ l) (l0 :: pre) ->
  marker ∉ pre ->
  post <> [] ->
  parse_lines ∅ (l0 :: pre) = Ok m ->
  parse_frontmatter (doc (marker :: l0 :: pre ++ marker :: post))
  = Ok (m, strip (doc post)).
Proof.
  intros Hnl Hm Hpost Hlines.
  rewrite parse_frontmatter_unfold.
  rewrite <- (opening_doc (l0 :: pre ++ marker :: post)) by done.
  rewrite re_match_opening, find_close_doc_Some by done.
  rewrite split_doc by done.
  rewrite parse_lines_foldl in Hlines. by injection Hlines as <-.
Qed.

Lemma block_ends_at_first_marker_line_witness :
  parse_frontmatter
    (doc [lit "---"; lit "title: A"; lit "draft: no"; lit "---";
          lit "Intro"; lit "---"; lit "More "])
  = Ok ({[ lit "title" := VStr (lit "A"); lit "draft" := VStr (lit "no") ]},
        strip (doc [lit "Intro"; lit "---"; lit "More "])).
Proof.
  apply (block_ends_at_first_marker_line
           (lit "title: A") [lit "draft: no"] [lit "Intro"; lit "---"; lit "More "]).
  - repeat constructor;
      intros Hin%list_elem_of_In; vm_compute in Hin; intuition discriminate.
  - intros Hin%list_elem_of_In; vm_compute in Hin; intuition discriminate.
  - discriminate.
  - by vm_compute.
Defined.

(** X2: a line of the block without a colon, a blank line among them,
    changes nothing: the mapping is the one of the block without it. *)
Theorem line_without_colon_ignored m before line after :
  COLON ∉ line ->
  parse_lines m (before ++ line :: after) = parse_lines m (before ++ after).
Proof.
  intros Hc. rewrite !parse_lines_foldl, !foldl_app. cbn [foldl].
  do 2 f_equal. unfold add_entry, line_entry.
  rewrite cut_first_None; [done|]. by intros ?%strip_elem_of.
Qed.

Lemma line_without_colon_ignored_witness :
  parse_lines ∅ ([lit "title: A"] ++ lit "just a remark" :: [lit "draft: no"])
  = parse_lines ∅ ([lit "title: A"] ++ [lit "draft: no"]).
Proof.
  apply line_without_colon_ignored.
  intros Hin%list_elem_of_In; vm_compute in Hin; intuition discriminate.
Defined.

(** X3: whatever the text, a key of the parsed mapping is trimmed and has
    neither a colon nor a newline; a scalar value has no newline; an item
    of a list value has neither a comma nor a newline. *)
Theorem parsed_entries_well_formed content m body k v :
  parse_frontmatter content = Ok (m, body) ->
  m !! k = Some v ->
  strip k = k /\ (COLON ∉ k) /\ (NL ∉ k) /\
  match v with
  | VStr s => NL ∉ s
  | VList items => Forall (fun item => (COMMA ∉ item) /\ (NL ∉ item)) items
  end.
Proof.
  intros Hparse Hk.
  destruct (parse_frontmatter_entries_ok _ _ _ Hparse k v Hk) as [(?&?&?) Hv].
  split_and!; [done..|]. by destruct v.
Qed.

Lemma parsed_entries_well_formed_witness :
  let k := lit "labels" in
  strip k = k /\ (COLON ∉ k) /\ (NL ∉ k) /\
  Forall (fun item => (COMMA ∉ item) /\ (NL ∉ item)) [lit "a b"; lit "c"].
Proof.
  apply (parsed_entries_well_formed
           (doc [lit "---"; lit "  labels :  [ 'a b' , c ] "; lit "---"; lit ""])
           {[ lit "labels" := VList [lit "a b"; lit "c"] ]} []
           (lit "labels") (VList [lit "a b"; lit "c"])).
  - by vm_compute.
  - by vm_compute.
Defined.

Lemma foldl_add_entry_origin m0 lines k v :
  foldl add_entry m0 lines !! k = Some v ->
  m0 !! k = Some v \/ exists line, line ∈ lines /\ line_entry line = Some (k, v).
Proof.
  revert m0. induction lines as [|l rest IH]; intros m0; [by left|].
  cbn [foldl]. intros [Hm|(line & Hin & Hl)]%IH.
  - rewrite add_entry_lookup in Hm.
    destruct (line_entry l) as [[key w]|] eqn:Hl; [|by left].
    destruct (decide (key = k)) as [->|_]; [|by left].
    injection Hm as ->. right. exists l. split; [by left | done].
  - right. exists line. split; [by right | done].
Qed.

(** X4: the mapping holds nothing that the block does not say: each of
    its entries is the entry of some line of the block. *)
Theorem entries_come_from_lines content block rest m body k v :
  re_match content = Some (block, rest) ->
  parse_frontmatter content = Ok (m, body) ->
  m !! k = Some v ->
  exists line, line ∈ split NL block /\ parse_line ∅ line = Ok {[ k := v ]}.
Proof.
  intros Hre Hparse Hk. rewrite parse_frontmatter_unfold, Hre in Hparse.
  injection Hparse as <- <-.
  apply foldl_add_entry_origin in Hk as [Hk|(line & Hin & Hl)].
  - by rewrite lookup_empty in Hk.
  - exists line. split; [done|].
    rewrite parse_line_add_entry. unfold add_entry. by rewrite Hl.
Qed.

Lemma entries_come_from_lines_witness :
  exists line,
    line ∈ split NL (doc [lit "title: A"; lit "note"; lit "title: B"]) /\
    parse_line ∅ line = Ok {[ lit "title" := VStr (lit "B") ]}.
Proof.
  apply (entries_come_from_lines
           (doc [lit "---"; lit "title: A"; lit "note"; lit "title: B"; lit "---"; lit "x"])
           (doc [lit "title: A"; lit "note"; lit "title: B"]) (lit "x")
           {[ lit "title" := VStr (lit "B") ]} (lit "x")).
  - by vm_compute.
  - by vm_compute.
  - by vm_compute.
Defined.

(** X5: a line made of a trimmed key without a colon, a colon, a blank
    and a trimmed text sets the key to the value of that text; colons in
    the text stay in the value. *)
Theorem key_value_line m k text :
  strip k = k -> COLON ∉ k -> strip text = text ->
  parse_line m (k ++ lit ": " ++ text) = Ok (<[ k := parse_value text ]> m).
Proof.
  intros Hk Hcolon Htext. rewrite parse_line_add_entry. f_equal.
  unfold add_entry, line_entry.
  change (lit ": " ++ text) with (COLON :: SP :: text).
  rewrite strip_written_line by (by apply strip_eq_stripped).
  rewrite cut_first_app, Hk by done.
  destruct text as [|c text]; [done|].
  by rewrite strip_after_space by (by apply strip_eq_stripped).
Qed.

Lemma key_value_line_witness :
  parse_line ∅ (lit "site" ++ lit ": " ++ lit "https://example.org:8080/x")
  = Ok (<[ lit "site" := parse_value (lit "https://example.org:8080/x") ]> ∅).
Proof.
  apply key_value_line.
  - reflexivity.
  - intros Hin%list_elem_of_In; vm_compute in Hin; intuition discriminate.
  - reflexivity.
Defined.

Lemma length_split sep s :
  length (split sep s) = S (length (filter (fun c => c = sep) s)).
Proof.
  induction s as [|c s IH]; [done|].
  rewrite split_cons, filter_cons.
  destruct (N.eqb_spec c sep) as [->|Hne].
  - rewrite decide_True by done. cbn [length]. by rewrite IH.
  - rewrite decide_False by done.
    destruct (split sep s) as [|p more]; [done|]. apply IH.
Qed.

(** X6: a bracketed value with a non-empty interior has one item more
    than its interior has commas: a comma always separates, inside quotes
    too. *)
Theorem list_items_count_commas inner :
  inner <> [] ->
  exists items,
    parse_value (LBRACK :: inner ++ [RBRACK]) = VList items /\
    length items = S (length (filter (fun c => c = COMMA) inner)).
Proof.
  intros Hne. rewrite parse_value_bracketed.
  destruct inner as [|c inner]; [done|].
  eexists. split; [done|]. by rewrite length_map, length_split.
Qed.

Lemma list_items_count_commas_witness :
  exists items,
    parse_value (LBRACK :: quoted (lit "a,b") ++ [RBRACK]) = VList items /\
    length items = 2.
Proof.
  apply (list_items_count_commas (quoted (lit "a,b"))). discriminate.
Defined.

(** X7: a scalar between two double quotes, or between two single
    quotes, is read as the text between them, whatever that text is. *)
Theorem quoted_scalar_is_its_inside x :
  parse_value (DQ :: x ++ [DQ]) = VStr x /\
  parse_value (SQ :: x ++ [SQ]) = VStr x.
Proof.
  split; unfold parse_value, is_quoted;
    rewrite !startswith_char_cons, !app_comm_cons, !endswith_char_snoc;
    cbn [N.eqb Pos.eqb DQ SQ LBRACK RBRACK andb orb];
    by rewrite <- app_comm_cons, slice_wrap.
Qed.

Lemma find_close_shortest s g1 g2 b r :
  find_close s = Some (g1, g2) -> s = b ++ closing ++ r ->
  length g1 <= length b.
Proof.
  revert g1 b. induction s as [|c s IH]; intros g1 b.
  - intros H. by vm_compute in H.
  - rewrite find_close_unfold.
    destruct (startswith closing (c :: s)) eqn:Hp.
    + intros [= <- _] _. cbn. lia.
    + destruct (find_close s) as [[h1 h2]|] eqn:Hs; [|done].
      intros [= <- <-] Heq. destruct b as [|c' b].
      * cbn [app] in Heq. rewrite Heq, startswith_app in Hp. done.
      * injection Heq as -> Heq. cbn [length].
        apply le_n_S. by apply (IH h1 b).
Qed.

(** X8: when the pattern matches, the text is the opening marker line,
    the block, the closing marker between two newlines, and the rest; and
    no shorter block would do. *)
Theorem block_is_shortest content block rest :
  re_match content = Some (block, rest) ->
  content = opening ++ block ++ closing ++ rest /\
  forall block' rest',
    content = opening ++ block' ++ closing ++ rest' ->
    length block <= length block'.
Proof.
  intros Hre. split; [by apply re_match_Some|].
  intros block' rest' ->. rewrite re_match_opening in Hre.
  by eapply find_close_shortest.
Qed.

Lemma block_is_shortest_witness :
  let content := doc [lit "---"; lit "a: 1"; lit "---"; lit "b"; lit "---"; lit "c"] in
  content = opening ++ lit "a: 1" ++ closing ++ doc [lit "b"; lit "---"; lit "c"] /\
  forall block' rest',
    content = opening ++ block' ++ closing ++ rest' ->
    length (lit "a: 1") <= length block'.
Proof.
  apply (block_is_shortest
           (doc [lit "---"; lit "a: 1"; lit "---"; lit "b"; lit "---"; lit "c"])
           (lit "a: 1") (doc [lit "b"; lit "---"; lit "c"])).
  by vm_compute.
Defined.

(** X9: when the text has front matter, the body comes back trimmed:
    it neither begins nor ends with a whitespace character. *)
Theorem body_is_trimmed content m body :
  has_front_matter content ->
  parse_frontmatter content = Ok (m, body) ->
  stripped body.
Proof.
  intros Hfm. rewrite parse_frontmatter_unfold.
  destruct (re_match content) as [[block rest]|] eqn:Hre.
  - intros [= _ <-]. apply strip_stripped.
  - by apply re_match_None in Hre.
Qed.

Lemma body_is_trimmed_witness : stripped (lit "Body text").
Proof.
  apply (body_is_trimmed
           (doc [lit "---"; lit "title: A"; lit "---"; lit ""; lit "  Body text  "; lit ""])
           {[ lit "title" := VStr (lit "A") ]} (lit "Body text")).
  - exists (lit "title: A"), (doc [lit ""; lit "  Body text  "; lit ""]). by vm_compute.
  - by vm_compute.
Defined.

End ParserMore.

(** ** More about the issue creator *)
Module IssueBatchFacts.
Import Py FrontMatter Issues Spec IssueBatch PyFacts FrontMatterFacts IssuesFacts.

Lemma scan_titled issues titles title :
  Forall2 titled issues titles ->
  scan issues title = Ok (bool_decide (title ∈ titles)).
Proof.
  induction 1 as [|issue t issues titles (fields & -> & Hf) _ IH]; [done|].
  cbn [scan subscript_title]. rewrite Hf. cbn.
  destruct (decide (t = title)) as [->|Hne].
  - rewrite bool_decide_eq_true_2 by done.
    by rewrite bool_decide_eq_true_2 by left.
  - rewrite bool_decide_eq_false_2 by done. rewrite IH.
    f_equal. apply bool_decide_ext. rewrite elem_of_cons.
    split; [by right | by intros [?|?]].
Qed.

Lemma issue_exists_titled gh json_loads title out issues titles :
  gh (list_cmd title) = Ok out ->
  json_loads out = Ok (JArray issues) ->
  Forall2 titled issues titles ->
  issue_exists gh json_loads title = ([], Ok (bool_decide (title ∈ titles))).
Proof.
  intros Hgh Hjson Hall. unfold issue_exists, query.
  rewrite Hgh. cbn. rewrite Hjson. cbn. by rewrite (scan_titled _ titles).
Qed.

(** X10: on an answer in the expected form the checker says whether some
    issue has exactly the candidate title, and prints nothing. *)
Theorem issue_exists_exact_title gh json_loads title out issues titles :
  gh (list_cmd title) = Ok out ->
  json_loads out = Ok (JArray issues) ->
  Forall2 titled issues titles ->
  issue_exists gh json_loads title = ([], Ok (bool_decide (title ∈ titles))).
Proof. apply issue_exists_titled. Qed.

Lemma issue_exists_exact_title_witness :
  issue_exists (gh_prints (lit "..."))
    (loads_gives (JArray [JObject [(lit "title", JString (lit "Fix login bug (again)"))];
                          JObject [(lit "title", JString (lit "fix login bug"))]]))
    (lit "Fix login bug")
  = ([], Ok (bool_decide (lit "Fix login bug"
                          ∈ [lit "Fix login bug (again)"; lit "fix login bug"]))).
Proof.
  apply (issue_exists_exact_title _ _ _ (lit "...")
           [JObject [(lit "title", JString (lit "Fix login bug (again)"))];
            JObject [(lit "title", JString (lit "fix login bug"))]]
           [lit "Fix login bug (again)"; lit "fix login bug"]); [done..|].
  repeat constructor; eexists; (split; [reflexivity|by vm_compute]).
Defined.

(** *** Which answers warn *)











Section batch_facts.
Variable read_file : list N -> result (list N).
Variable gh : list (list N) -> result (list N).
Variable json_loads : list N -> result json.
Variable gh_create : list (list N) -> create_outcome.
Variable str_of_list : list (list N) -> list N.

(** On a string title the checker that [main] calls is the one above. *)
Lemma scan_value_str issues s : scan_value issues (VStr s) = scan issues s.
Proof.
  induction issues as [|issue rest IH]; [done|]. cbn [scan_value scan].
  destruct (subscript_title issue) as [t|e]; [|done]. cbn. by rewrite IH.
Qed.

Lemma issue_exists_value_str s :
  issue_exists_value gh json_loads str_of_list (VStr s)
  = issue_exists gh json_loads s.
Proof.
  unfold issue_exists_value, issue_exists, query_value, query. cbn [title_text].
  destruct (gh _) as [out|e]; [|done]. cbn.
  destruct (json_loads out) as [issues|e]; [|done]. cbn.
  destruct (iterate issues) as [items|e]; [|done]. cbn.
  by rewrite scan_value_str.
Qed.

(** X11: a file whose metadata has no title, a file without front matter
    among them, is skipped with a notice: the tracker is not called and
    the counters stay. *)
Theorem file_without_title_skipped st path content m body :
  Converter.basename path <> BACKLOG_FILE ->
  read_file path = Ok content ->
  parse_frontmatter content = Ok (m, body) ->
  m !! lit "title" = None ->
  process_file read_file gh json_loads gh_create str_of_list st path
  = ([Say (lit "Processing " ++ Converter.basename path ++ lit "...");
      Open path;
      Say (lit "  Skipping: No 'title' found in frontmatter.")],
     Ok st).
Proof.
  intros Hname Hread Hparse Htitle. unfold process_file. destruct st as [count skipped].
  rewrite bool_decide_eq_false_2 by done. rewrite Hread, Hparse.
  rewrite (bool_decide_eq_true_2 (m !! lit "title" = None)) by done.
  by rewrite orb_true_r.
Qed.

(** X12: when the tracker already has an issue with the title of the
    file, the file is skipped: one more skipped, the same number created,
    and the only call is the listing. *)
Theorem existing_issue_skipped
    count skipped path content m body t out issues titles :
  Converter.basename path <> BACKLOG_FILE ->
  read_file path = Ok content ->
  parse_frontmatter content = Ok (m, body) ->
  m !! lit "title" = Some (VStr t) ->
  gh (list_cmd t) = Ok out ->
  json_loads out = Ok (JArray issues) ->
  Forall2 titled issues titles ->
  t ∈ titles ->
  process_file read_file gh json_loads gh_create str_of_list (count, skipped) path
  = ([Say (lit "Processing " ++ Converter.basename path ++ lit "...");
      Open path;
      Call (str_args (list_cmd t));
      Say (lit "  Skipping: Issue with title '" ++ t ++ lit "' already exists.")],
     Ok (count, S skipped)).
Proof.
  intros Hname Hread Hparse Htitle Hgh Hjson Hall Hin. unfold process_file.
  rewrite bool_decide_eq_false_2 by done. rewrite Hread, Hparse.
  rewrite !bool_decide_eq_false_2.
  - cbn [orb]. rewrite Htitle, issue_exists_value_str.
    rewrite (issue_exists_titled gh json_loads t out issues titles) by done.
    by rewrite bool_decide_eq_true_2 by done.
  - by rewrite Htitle.
  - intros ->. by rewrite lookup_empty in Htitle.
Qed.

(** *** The batch goes on *)

Lemma all_str_Some cmd :
  Forall (fun v => exists s, v = VStr s) cmd -> is_Some (all_str cmd).
Proof.
  induction 1 as [|v cmd [s ->] _ [strs IH]]; [by eexists|].
  cbn. rewrite IH. by eexists.
Qed.

Lemma create_cmd_all_str t body labels :
  is_Some (all_str (create_cmd (VStr t) body labels)).
Proof.
  apply all_str_Some. unfold create_cmd, str_args.
  rewrite !Forall_app. split_and!.
  - apply Forall_fmap, Forall_forall. intros s _. by exists s.
  - constructor; [by exists t | constructor].
  - apply Forall_fmap, Forall_forall. intros s _. by exists s.
  - apply Forall_forall. intros v Hv%list_elem_of_In%in_flat_map.
    destruct Hv as (label & Hlabel & Hv%list_elem_of_In).
    apply elem_of_cons in Hv as [->|Hv%list_elem_of_singleton]; [by eexists|].
    subst v. apply list_elem_of_In in Hlabel. unfold each_label in Hlabel.
    destruct labels; apply list_elem_of_fmap in Hlabel as (x & -> & _); by eexists.
Qed.

Lemma process_file_returns count skipped path :
  (forall p e, read_file p = Raise e -> is_Exception (exn_class_of e) = true) ->
  (forall cmd e, gh cmd = Raise e -> is_Exception (exn_class_of e) = true) ->
  (forall s e, json_loads s = Raise e -> is_Exception (exn_class_of e) = true) ->
  (forall cmd e, gh_create cmd <> Crashed e) ->
  (forall p content m body title,
      read_file p = Ok content -> parse_frontmatter content = Ok (m, body) ->
      m !! lit "title" = Some title -> exists t, title = VStr t) ->
  exists ev count' skipped',
    process_file read_file gh json_loads gh_create str_of_list (count, skipped) path
    = (ev, Ok (count', skipped')) /\
    count <= count' /\ skipped <= skipped' /\
    count' + skipped' <= count + skipped + 1.
Proof.
  intros Hread Hgh Hjson Hcreate Htitles. unfold process_file.
  destruct (bool_decide _); [by eexists _, _, _; split_and!; [done|lia..]|].
  destruct (read_file path) as [content|e] eqn:Hr.
  2:{ rewrite (Hread _ _ Hr). by eexists _, _, _; split_and!; [done|lia..]. }
  destruct (parse_frontmatter content) as [[m body]|e] eqn:Hp.
  2:{ rewrite parse_frontmatter_unfold in Hp.
      by destruct (re_match content) as [[??]|]. }
  destruct (m !! lit "title") as [title|] eqn:Ht.
  2:{ rewrite (bool_decide_eq_true_2 (None = None)) by done. rewrite orb_true_r.
      by eexists _, _, _; split_and!; [done|lia..]. }
  destruct (Htitles _ _ _ _ _ Hr Hp Ht) as [t ->].
  rewrite !bool_decide_eq_false_2; [|done|by intros ->; rewrite lookup_empty in Ht].
  cbn [orb]. rewrite issue_exists_value_str.
  destruct (issue_exists_returns gh json_loads t Hgh Hjson) as (out & b & ->).
  destruct b; [by eexists _, _, _; split_and!; [done|lia..]|].
  unfold run_create.
  destruct (create_cmd_all_str t body (default (VList []) (m !! lit "labels")))
    as [strs ->].
  destruct (gh_create strs) as [stdout|stderr|e] eqn:Hc.
  - by eexists _, _, _; split_and!; [done|lia..].
  - by eexists _, _, _; split_and!; [done|lia..].
  - by destruct (Hcreate _ _ Hc).
Qed.

End batch_facts.

Lemma file_without_title_skipped_witness :
  process_file SampleRun.read_file gh_missing loads_fails
    SampleRun.create_ok SampleRun.str_of_list (3, 1) (lit "docs/product/notes.md")
  = ([Say (lit "Processing " ++ Converter.basename (lit "docs/product/notes.md")
           ++ lit "...");
      Open (lit "docs/product/notes.md");
      Say (lit "  Skipping: No 'title' found in frontmatter.")],
     Ok (3, 1)).
Proof.
  apply (file_without_title_skipped SampleRun.read_file gh_missing loads_fails
           SampleRun.create_ok SampleRun.str_of_list (3, 1)
           (lit "docs/product/notes.md") SampleRun.notes_md ∅ SampleRun.notes_md).
  - by vm_compute.
  - reflexivity.
  - by vm_compute.
  - reflexivity.
Defined.

Lemma existing_issue_skipped_witness :
  process_file SampleRun.read_file (gh_prints (lit "..."))
    (loads_gives SampleRun.known_issues)
    SampleRun.create_ok SampleRun.str_of_list (3, 1) (lit "docs/product/login.md")
  = ([Say (lit "Processing " ++ Converter.basename (lit "docs/product/login.md")
           ++ lit "...");
      Open (lit "docs/product/login.md");
      Call (str_args (list_cmd (lit "Fix login bug")));
      Say (lit "  Skipping: Issue with title '" ++ lit "Fix login bug"
           ++ lit "' already exists.")],
     Ok (3, 2)).
Proof.
  apply (existing_issue_skipped SampleRun.read_file (gh_prints (lit "..."))
           (loads_gives SampleRun.known_issues)
           SampleRun.create_ok SampleRun.str_of_list 3 1
           (lit "docs/product/login.md") SampleRun.login_md
           {[ lit "title" := VStr (lit "Fix login bug");
              lit "labels" := VList [lit "bug"; lit "urgent"] ]}
           (lit "Steps to reproduce") (lit "Fix login bug") (lit "...")
           [JObject [(lit "title", JString (lit "Fix login bug"))]]
           [lit "Fix login bug"]).
  - by vm_compute.
  - reflexivity.
  - by vm_compute.
  - by vm_compute.
  - reflexivity.
  - reflexivity.
  - repeat constructor. eexists. split; [reflexivity | by vm_compute].
  - by left.
Defined.

Section batch_limits.
Variable gh_version : result unit.
Variable script_file : list N.
Variable exists_path : list N -> bool.
Variable abspath : list N -> list N.
Variable glob : list N -> list (list N).
Variable read_file : list N -> result (list N).
Variable gh : list (list N) -> result (list N).
Variable json_loads : list N -> result json.
Variable gh_create : list (list N) -> create_outcome.
Variable str_of_list : list (list N) -> list N.

Lemma create_cmd_list_title items body labels :
  all_str (create_cmd (VList items) body labels) = None.
Proof. reflexivity. Qed.

(** X14: a title written in brackets ends the run.  When no issue with
    that title is found, the creation command holds a list where a string
    is due; the call raises a [TypeError] that nothing handles, and the
    files that follow are not opened. *)
Theorem list_title_ends_batch st path rest content m body items warnings :
  Converter.basename path <> BACKLOG_FILE ->
  read_file path = Ok content ->
  parse_frontmatter content = Ok (m, body) ->
  m !! lit "title" = Some (VList items) ->
  issue_exists_value gh json_loads str_of_list (VList items) = (warnings, Ok false) ->
  exists ev,
    process_files read_file gh json_loads gh_create str_of_list st (path :: rest)
    = (ev, Raise (Exn TypeError
                    (lit "expected str, bytes or os.PathLike object, not list")))
    /\ opened ev = [path].
Proof.
  intros Hname Hread Hparse Htitle Hex. cbn [process_files]. unfold process_file.
  destruct st as [count skipped].
  rewrite bool_decide_eq_false_2 by done. rewrite Hread, Hparse.
  rewrite !bool_decide_eq_false_2;
    [|by rewrite Htitle|by intros ->; rewrite lookup_empty in Htitle].
  cbn [orb]. rewrite Htitle, Hex. unfold run_create.
  rewrite create_cmd_list_title. eexists. split; [done|].
  unfold opened. rewrite !flat_map_app. cbn [flat_map app].
  rewrite app_nil_r. clear. induction warnings as [|w ws IH]; [done|]. apply IH.
Qed.

(** The files a step opens: its own, unless it is the backlog file. *)
Lemma opened_map_Say lines : opened (map Say lines) = [].
Proof. induction lines as [|l ls IH]; [done|]. apply IH. Qed.

Lemma opened_process_file st path :
  opened (process_file read_file gh json_loads gh_create str_of_list st path).1
  = if bool_decide (Converter.basename path = BACKLOG_FILE) then [] else [path].
Proof.
  unfold process_file. destruct st as [count skipped].
  destruct (bool_decide _); [done|].
  destruct (read_file path) as [content|e]; [|by destruct (is_Exception _)].
  destruct (parse_frontmatter content) as [[m body]|e]; [|done].
  destruct (_ || _); [done|].
  destruct (m !! lit "title") as [title|]; [|done].
  destruct (issue_exists_value _ _ _ title) as [warnings found].
  assert (forall tail, opened tail = [] ->
            opened ([Say (lit "Processing " ++ Converter.basename path ++ lit "...");
                     Open path]
                    ++ [Call (str_args (list_cmd (title_text str_of_list title)))]
                    ++ map Say warnings ++ tail) = [path]) as Hev.
  { intros tail Ht. unfold opened in *. rewrite !flat_map_app. cbn [flat_map app].
    fold (opened (map Say warnings)). by rewrite opened_map_Say, Ht. }
  destruct found as [[]|e]; cbn [fst].
  - rewrite <- !app_assoc. by apply Hev.
  - destruct (run_create _ _); cbn [fst]; rewrite <- !app_assoc; by apply Hev.
  - rewrite <- (app_nil_r (map Say warnings)). by apply Hev.
Qed.

(** X13: no failure of a single file ends the batch.  When reading,
    listing and decoding raise ordinary exceptions only, creation either
    succeeds or exits with an error, and every title is a string, the
    loop goes through the whole list: it returns the counters, it has
    opened every file of the list but the backlog file, in order, and
    each file has added at most one to the counters. *)
Theorem batch_outlives_item_failures files count skipped :
  (forall p e, read_file p = Raise e -> is_Exception (exn_class_of e) = true) ->
  (forall cmd e, gh cmd = Raise e -> is_Exception (exn_class_of e) = true) ->
  (forall s e, json_loads s = Raise e -> is_Exception (exn_class_of e) = true) ->
  (forall cmd e, gh_create cmd <> Crashed e) ->
  (forall p content m body title,
      read_file p = Ok content -> parse_frontmatter content = Ok (m, body) ->
      m !! lit "title" = Some title -> exists t, title = VStr t) ->
  exists ev count' skipped',
    process_files read_file gh json_loads gh_create str_of_list (count, skipped) files
    = (ev, Ok (count', skipped')) /\
    opened ev = filter (fun f => Converter.basename f <> BACKLOG_FILE) files /\
    count <= count' /\ skipped <= skipped' /\
    count' + skipped' <= count + skipped + length files.
Proof.
  intros Hread Hgh Hjson Hcreate Htitles.
  revert count skipped. induction files as [|f rest IH]; intros count skipped.
  - exists [], count, skipped. cbn. split_and!; [done..|lia|lia|lia].
  - cbn [process_files].
    pose proof (opened_process_file (count, skipped) f) as Hopen.
    destruct (process_file_returns read_file gh json_loads gh_create str_of_list
                count skipped f Hread Hgh Hjson Hcreate Htitles)
      as (ev & c1 & s1 & Hstep & ? & ? & ?).
    rewrite Hstep in Hopen |- *. cbn [fst] in Hopen.
    destruct (IH c1 s1) as (ev' & c2 & s2 & -> & Hrest & ? & ? & ?).
    exists (ev ++ ev'), c2, s2. cbn [length]. split_and!; [done| |lia..].
    unfold opened in *. rewrite flat_map_app, Hopen, Hrest, filter_cons.
    case_bool_decide; [by rewrite decide_False by (by intros []) |].
    by rewrite decide_True by done.
Qed.

(** X15: the run opens only files of its list, and never one whose name
    is that of the backlog file. *)
Theorem opened_files_listed_and_not_backlog st files p :
  p ∈ opened (process_files read_file gh json_loads gh_create str_of_list st files).1 ->
  p ∈ files /\ Converter.basename p <> BACKLOG_FILE.
Proof.
  revert st. induction files as [|f rest IH]; intros st; cbn [process_files].
  - cbn. by intros ?%elem_of_nil.
  - pose proof (opened_process_file st f) as Hf.
    destruct (process_file _ _ _ _ _ st f) as [ev [st'|e]]; cbn [fst] in *.
    + specialize (IH st'). destruct (process_files _ _ _ _ _ st' rest) as [ev' r].
      cbn [fst] in *. unfold opened in *. rewrite flat_map_app, elem_of_app.
      intros [Hin|Hin].
      * rewrite Hf in Hin. case_bool_decide; [by apply elem_of_nil in Hin|].
        apply list_elem_of_singleton in Hin as ->. split; [by left|done].
      * destruct (IH Hin). split; [by right|done].
    + rewrite Hf. case_bool_decide; [by intros ?%elem_of_nil|].
      intros ->%list_elem_of_singleton. split; [by left|done].
Qed.

(** X16: without the tracker's tool, or without the directory of the
    documents, [main] exits with status 1 after the version check: no
    file is opened and no other command is run. *)
Theorem main_fatal_preconditions e :
  (gh_version = Raise e /\
   (exn_class_of e = CalledProcessError \/ exn_class_of e = FileNotFoundError))
  \/ (gh_version = Ok tt /\
      exists_path (Converter.path_join
                     (Converter.dirname (Converter.dirname script_file)) DOCS_DIR)
      = false /\
      exists_path DOCS_DIR = false) ->
  exists ev,
    main gh_version script_file exists_path abspath glob read_file gh json_loads
      gh_create str_of_list
    = (ev, Raise exit_1)
    /\ opened ev = [] /\ calls ev = [version_cmd].
Proof.
  intros [[Hv Hclass]|(Hv & H1 & H2)]; unfold main, check_gh_installed; rewrite Hv.
  - assert (bool_decide (exn_class_of e = CalledProcessError)
            || bool_decide (exn_class_of e = FileNotFoundError) = true) as ->.
    { destruct Hclass as [-> | ->]; reflexivity. }
    by eexists.
  - rewrite H1, H2. by eexists.
Qed.

End batch_limits.

Lemma batch_outlives_item_failures_witness :
  exists ev count' skipped',
    process_files SampleRun.read_login gh_missing loads_fails
      SampleRun.create_fails SampleRun.str_of_list (0, 0)
      [lit "docs/product/a.md"; lit "docs/product/backlog.md"; lit "docs/product/b.md"]
    = (ev, Ok (count', skipped')) /\
    opened ev
    = filter (fun f => Converter.basename f <> BACKLOG_FILE)
        [lit "docs/product/a.md"; lit "docs/product/backlog.md"; lit "docs/product/b.md"] /\
    0 <= count' /\ 0 <= skipped' /\ count' + skipped' <= 0 + 0 + 3.
Proof.
  apply (batch_outlives_item_failures SampleRun.read_login gh_missing loads_fails
           SampleRun.create_fails SampleRun.str_of_list
           [lit "docs/product/a.md"; lit "docs/product/backlog.md"; lit "docs/product/b.md"]
           0 0).
  - intros p e H. discriminate H.
  - intros cmd e [= <-]. reflexivity.
  - intros s e [= <-]. reflexivity.
  - intros cmd e H. discriminate H.
  - intros p content m body title [= <-] Hp Ht.
    vm_compute in Hp. injection Hp as <- <-.
    vm_compute in Ht. injection Ht as <-. by eexists.
Defined.

Lemma list_title_ends_batch_witness :
  exists ev,
    process_files SampleRun.read_file (gh_prints (lit "[]")) (loads_gives (JArray []))
      SampleRun.create_ok SampleRun.str_of_list (0, 0)
      [lit "docs/product/list.md"; lit "docs/product/login.md"]
    = (ev, Raise (Exn TypeError
                    (lit "expected str, bytes or os.PathLike object, not list")))
    /\ opened ev = [lit "docs/product/list.md"].
Proof.
  apply (list_title_ends_batch SampleRun.read_file (gh_prints (lit "[]"))
           (loads_gives (JArray [])) SampleRun.create_ok SampleRun.str_of_list
           (0, 0) (lit "docs/product/list.md") [lit "docs/product/login.md"]
           SampleRun.list_title_md
           {[ lit "title" := VList [lit "Fix"; lit "login"] ]} (lit "Body")
           [lit "Fix"; lit "login"] []).
  - by vm_compute.
  - reflexivity.
  - by vm_compute.
  - by vm_compute.
  - reflexivity.
Defined.

Lemma opened_files_listed_and_not_backlog_witness :
  lit "docs/product/notes.md"
  ∈ [lit "docs/product/backlog.md"; lit "docs/product/notes.md"]
  /\ Converter.basename (lit "docs/product/notes.md") <> BACKLOG_FILE.
Proof.
  apply (opened_files_listed_and_not_backlog SampleRun.read_file gh_missing
           loads_fails SampleRun.create_ok SampleRun.str_of_list (0, 0)
           [lit "docs/product/backlog.md"; lit "docs/product/notes.md"]
           (lit "docs/product/notes.md")).
  apply list_elem_of_In. vm_compute. by left.
Defined.

Lemma main_fatal_preconditions_witness :
  exists ev,
    main (Raise (Exn FileNotFoundError (lit "[Errno 2] No such file or directory: 'gh'")))
      (lit "/work/scripts/create_issues_from_docs.py") (fun _ => true) (fun p => p)
      (fun _ => []) SampleRun.read_file gh_missing loads_fails
      SampleRun.create_ok SampleRun.str_of_list
    = (ev, Raise exit_1)
    /\ opened ev = [] /\ calls ev = [version_cmd].
Proof.
  apply (main_fatal_preconditions
           (Raise (Exn FileNotFoundError (lit "[Errno 2] No such file or directory: 'gh'")))
           (lit "/work/scripts/create_issues_from_docs.py") (fun _ => true) (fun p => p)
           (fun _ => []) SampleRun.read_file gh_missing loads_fails
           SampleRun.create_ok SampleRun.str_of_list
           (Exn FileNotFoundError (lit "[Errno 2] No such file or directory: 'gh'"))).
  left. split; [reflexivity | by right].
Defined.

End IssueBatchFacts.

(** ** More about the document converter *)
Module ConverterMore.
Import Py Converter ConverterMain PyFacts ConverterFacts.

Lemma seq_returns (m k : io unit) :
  m.2 = Ok tt -> seq m k = (m.1 ++ k.1, k.2).
Proof. destruct m as [out r]. cbn. intros ->. apply seq_ok. Qed.

Lemma convert_file_not_markdown makedirs run p :
  is_markdown p = false ->
  convert_file makedirs run p
  = ([Print (lit "Skipping " ++ p ++ lit ": Not a markdown file.")], Ok tt).
Proof. unfold is_markdown, convert_file. by intros ->. Qed.

Lemma convert_file_markdown makedirs run p :
  is_markdown p = true ->
  makedirs (path_join (dirname p) (lit "converted")) = Ok tt ->
  convert_file makedirs run p
  = ([MakeDirs (path_join (dirname p) (lit "converted"));
      Print (lit "Converting " ++ p ++ lit " -> " ++ output_path_of p ++ lit "...")]
     ++ (try_pandoc run p (output_path_of p)).1,
     (try_pandoc run p (output_path_of p)).2).
Proof.
  unfold is_markdown, convert_file. intros -> Hmk. cbn [negb].
  rewrite Hmk, seq_ok. unfold emit. by rewrite seq_ok.
Qed.

Lemma try_pandoc_returns run i o :
  (forall cmd e, run cmd = Raise e -> is_Exception (exn_class_of e) = true) ->
  (try_pandoc run i o).2 = Ok tt.
Proof.
  intros Hrun. unfold try_pandoc.
  destruct (run _) as [[]|e] eqn:Hr; [done|].
  destruct (bool_decide _); [done|]. by rewrite (Hrun _ _ Hr).
Qed.

Lemma try_pandoc_made_dirs run i o : made_dirs (try_pandoc run i o).1 = [].
Proof.
  unfold try_pandoc. destruct (run _) as [[]|e]; [done|].
  destruct (bool_decide _); [done|]. by destruct (is_Exception _).
Qed.

Lemma for_each_convert_summary makedirs run files :
  (forall p, makedirs p = Ok tt) ->
  (forall cmd e, run cmd = Raise e -> is_Exception (exn_class_of e) = true) ->
  (for_each (convert_file makedirs run) files).2 = Ok tt /\
  commands (for_each (convert_file makedirs run) files).1
  = map (fun f => pandoc_cmd f (output_path_of f))
        (filter (fun f => is_markdown f = true) files) /\
  made_dirs (for_each (convert_file makedirs run) files).1
  = map (fun f => path_join (dirname f) (lit "converted"))
        (filter (fun f => is_markdown f = true) files).
Proof.
  intros Hmk Hrun. induction files as [|f rest (IH1 & IH2 & IH3)]; [done|].
  cbn [for_each]. rewrite filter_cons.
  destruct (is_markdown f) eqn:Hf.
  - rewrite decide_True by done.
    rewrite convert_file_markdown, seq_returns by (by try apply try_pandoc_returns).
    cbn [fst snd]. split_and!; [done| |].
    + unfold commands in *. rewrite !flat_map_app. cbn [flat_map app map].
      fold (commands (try_pandoc run f (output_path_of f)).1).
      by rewrite try_pandoc_commands, IH2.
    + unfold made_dirs in *. rewrite !flat_map_app. cbn [flat_map app map].
      fold (made_dirs (try_pandoc run f (output_path_of f)).1).
      by rewrite try_pandoc_made_dirs, IH3.
  - rewrite decide_False by done.
    rewrite convert_file_not_markdown, seq_ok by done. cbn [fst snd]. done.
Qed.

(** X17: when the output directory can always be made and the tool
    raises ordinary exceptions only, every file of the list is dealt
    with: the loop returns, the tool is run once for each file with the
    Markdown extension, in order, and never for another. *)
Theorem one_conversion_per_markdown_file makedirs run files :
  (forall p, makedirs p = Ok tt) ->
  (forall cmd e, run cmd = Raise e -> is_Exception (exn_class_of e) = true) ->
  (for_each (convert_file makedirs run) files).2 = Ok tt /\
  commands (for_each (convert_file makedirs run) files).1
  = map (fun f => pandoc_cmd f (output_path_of f))
        (filter (fun f => is_markdown f = true) files) /\
  made_dirs (for_each (convert_file makedirs run) files).1
  = map (fun f => path_join (dirname f) (lit "converted"))
        (filter (fun f => is_markdown f = true) files).
Proof. apply for_each_convert_summary. Qed.

Lemma one_conversion_per_markdown_file_witness :
  commands (for_each (convert_file Sample.makedirs Sample.run)
              [lit "docs/notes.md"; lit "docs/readme.txt"; lit "docs/PLAN.MD"]).1
  = [pandoc_cmd (lit "docs/notes.md") (lit "docs/converted/notes.docx");
     pandoc_cmd (lit "docs/PLAN.MD") (lit "docs/converted/PLAN.docx")].
Proof.
  refine (proj1 (proj2 (one_conversion_per_markdown_file Sample.makedirs Sample.run
            [lit "docs/notes.md"; lit "docs/readme.txt"; lit "docs/PLAN.MD"] _ _))).
  - reflexivity.
  - intros cmd e H. discriminate H.
Defined.

(** X18: when the output directory of a Markdown file cannot be made,
    the exception ends the loop: the tool is not run for this file, and
    the files after it are not touched. *)
Theorem makedirs_failure_ends_run makedirs run p rest e :
  is_markdown p = true ->
  makedirs (path_join (dirname p) (lit "converted")) = Raise e ->
  for_each (convert_file makedirs run) (p :: rest)
  = ([MakeDirs (path_join (dirname p) (lit "converted"))], Raise e).
Proof.
  unfold is_markdown. intros Hp Hmk. cbn [for_each].
  unfold convert_file. rewrite Hp. cbn [negb]. by rewrite Hmk.
Qed.

Lemma makedirs_failure_ends_run_witness :
  for_each (convert_file
              (fun _ => Raise (Exn OSError (lit "[Errno 13] Permission denied")))
              Sample.run)
    (lit "docs/notes.md" :: [lit "docs/other.md"])
  = ([MakeDirs (path_join (dirname (lit "docs/notes.md")) (lit "converted"))],
     Raise (Exn OSError (lit "[Errno 13] Permission denied"))).
Proof.
  apply makedirs_failure_ends_run; reflexivity.
Defined.

Section main_facts.
Variable isfile isdir : list N -> bool.
Variable listdir : list N -> list (list N).
Variable glob_wild : list N -> list (list N).
Variable makedirs : list N -> result unit.
Variable run : list (list N) -> result unit.



End main_facts.


(** *** Where the output goes *)

Lemma lower_char_dot x : lower_char x = DOT -> x = DOT.
Proof.
  unfold lower_char, DOT.
  destruct ((65 <=? x) && (x <=? 90))%N eqn:Hr; [|done].
  apply andb_true_iff in Hr as [H1%N.leb_le H2%N.leb_le]. lia.
Qed.

Lemma lower_char_letter x c :
  (97 <= c <= 122)%N -> lower_char x = c -> x <> DOT /\ x <> SLASH.
Proof.
  unfold lower_char, DOT, SLASH. intros Hc.
  destruct ((65 <=? x) && (x <=? 90))%N eqn:Hr.
  - apply andb_true_iff in Hr as [H1%N.leb_le H2%N.leb_le]. lia.
  - intros ->. lia.
Qed.

Lemma md_extension_inv ext :
  lower ext = lit ".md" ->
  exists a b, ext = [DOT; a; b] /\ (DOT ∉ [a; b]) /\ (SLASH ∉ [a; b]).
Proof.
  destruct ext as [|x [|a [|b [|? ?]]]]; try done.
  intros [= Hx Ha Hb]. apply lower_char_dot in Hx as ->.
  apply (lower_char_letter a 109) in Ha as [? ?]; [|lia].
  apply (lower_char_letter b 100) in Hb as [? ?]; [|lia].
  exists a, b. split; [done|].
  rewrite !not_elem_of_cons. split_and!; try done; apply not_elem_of_nil.
Qed.

(** X20: a file [d/stem.ext] whose extension is the Markdown one in any
    mix of upper and lower case is taken as Markdown, and its output is
    [d/converted/stem.docx]: the directory of the input, the fixed
    subdirectory, the name with the last extension replaced. *)
Theorem output_beside_input d stem ext :
  d <> [] -> endswith_char SLASH d = false ->
  SLASH ∉ stem -> forallb (fun x => (x =? DOT)%N) stem = false ->
  lower ext = lit ".md" ->
  is_markdown (d ++ SLASH :: stem ++ ext) = true /\
  output_path_of (d ++ SLASH :: stem ++ ext)
  = d ++ SLASH :: lit "converted" ++ SLASH :: stem ++ lit ".docx".
Proof.
  intros Hd Hend Hstem Hdots Hext.
  destruct (md_extension_inv ext Hext) as (a & b & -> & Hdot & Hslash).
  assert (SLASH ∉ stem ++ [DOT; a; b]) as Hname.
  { rewrite not_elem_of_app, not_elem_of_cons. split_and!; done. }
  split.
  - unfold is_markdown, lower.
    rewrite app_comm_cons, app_assoc, map_app.
    fold (lower [DOT; a; b]). rewrite Hext. apply endswith_app.
  - unfold output_path_of. rewrite dirname_join, basename_join by done.
    assert (splitext (stem ++ [DOT; a; b]) = (stem, [DOT; a; b])) as ->.
    { unfold splitext. rewrite rcut_no_sep by done.
      rewrite rcut_app by done.
      destruct stem as [|c stem]; [done|]. cbn [app].
      rewrite app_comm_cons, removelast_last. by rewrite Hdots. }
    cbn [fst]. rewrite (path_join_plain d (lit "converted")) by done.
    rewrite path_join_plain; [by rewrite <- app_assoc| | |].
    + by destruct d.
    + unfold endswith_char. by rewrite last_app.
    + apply startswith_char_notin. by apply notin_app_lit.
Qed.

Lemma output_beside_input_witness :
  is_markdown (lit "/home/me/docs/release.notes.Md") = true /\
  output_path_of (lit "/home/me/docs/release.notes.Md")
  = lit "/home/me/docs/converted/release.notes.docx".
Proof.
  refine (output_beside_input (lit "/home/me/docs") (lit "release.notes") (lit ".Md")
            _ _ _ _ _).
  - discriminate.
  - reflexivity.
  - intros Hin%list_elem_of_In; vm_compute in Hin; intuition discriminate.
  - reflexivity.
  - reflexivity.
Defined.

End ConverterMore.
